(** * FlashBott: the chat relay's request-orchestration core (server.js)

    A shallow embedding of [src/server.js]: the history adapter
    [buildHistoryForGemini], the retry wrapper [retryWithBackoff], the model
    resolution with its process-wide [cachedModelName], the conversation
    invoker with its flattened-prompt fallback, the error classification and
    the [POST /api/chat] handler that composes them; then the two diagnostic
    endpoints [/api/list-models] and [/api/test-models], and the request side
    of the browser client.

    Modelling conventions.
    - A JS string is a [string]: a sequence of code units, here restricted to
      the one-byte range.  [String.prototype.includes] is [includes],
      [String.prototype.trim] is [trim].
    - A JS number used as a counter or a delay is a [Z].
    - A value that may be [undefined]/[null] is an [option].
    - An [async] function is a state transformer returning a [Completion]:
      either it returns a value or it throws an error object.  The state holds
      the process-wide cache and the trace of everything the handler did to the
      outside world (upstream calls, sleeps).
    - The upstream service is an arbitrary deterministic function of the trace
      so far and of the call being made.
    - [genAI.getGenerativeModel] only builds a handle and is pure; the
      [console] output of the handler is not part of the model. *)

From Stdlib Require Import ZArith List String Ascii Bool Lia.
Import ListNotations.

Open Scope string_scope.
Open Scope list_scope.

(* ------------------------------------------------------------------ *)
(** ** Strings *)

(** [s.includes(p)]: [p] occurs in [s] as a contiguous run of code units. *)
Fixpoint includes (s p : string) : bool :=
  if String.prefix p s then true
  else match s with
       | EmptyString => false
       | String _ s' => includes s' p
       end.

(** White space and line terminators removed by [trim], in the one-byte
    range: TAB, LF, VT, FF, CR, SP and NBSP. *)
Definition isWhiteSpace (c : ascii) : bool :=
  let n := nat_of_ascii c in
  ((9 <=? n)%nat && (n <=? 13)%nat) || (n =? 32)%nat || (n =? 160)%nat.

Fixpoint trimStart (s : string) : string :=
  match s with
  | EmptyString => EmptyString
  | String c s' => if isWhiteSpace c then trimStart s' else s
  end.

Fixpoint trimEnd (s : string) : string :=
  match s with
  | EmptyString => EmptyString
  | String c s' =>
      match trimEnd s' with
      | EmptyString => if isWhiteSpace c then EmptyString else String c EmptyString
      | t => String c t
      end
  end.

Definition trim (s : string) : string := trimEnd (trimStart s).

(** JS truthiness of a string: the empty string is falsy. *)
Definition truthy (s : string) : bool :=
  match s with EmptyString => false | _ => true end.

(** Truthiness of a value that is a string, [undefined] or [null]. *)
Definition truthyOpt (o : option string) : bool :=
  match o with Some s => truthy s | None => false end.

(** [a || b] on such a value with a string default. *)
Definition orElse (o : option string) (d : string) : string :=
  match o with
  | Some s => if truthy s then s else d
  | None => d
  end.

(** [lines.join(sep)] *)
Fixpoint join (sep : string) (l : list string) : string :=
  match l with
  | [] => ""
  | [x] => x
  | x :: rest => (x ++ sep ++ join sep rest)%string
  end.

Definition LF : string := String (ascii_of_nat 10) EmptyString.

(* ------------------------------------------------------------------ *)
(** ** Data model *)

(** An entry of the caller's history: [{ sender, text }]. *)
Record Message := { sender : string; text : string }.

(** An upstream content entry: [{ role, parts: [{ text }] }]. *)
Record Part := { part_text : string }.
Record Content := { role : string; parts : list Part }.

(** [Array.prototype.slice(-n)]: the last [n] elements, all of them when the
    array is shorter. *)
Definition sliceLast {A} (n : nat) (l : list A) : list A :=
  skipn (List.length l - n) l.

(** [Array.prototype.slice(0, -1)]: all but the last element. *)
Definition sliceInit {A} (l : list A) : list A := removelast l.

(* ------------------------------------------------------------------ *)
(** ** buildHistoryForGemini  (server.js, lines 22-38) *)

(** One iteration of the [for (const msg of history || [])] loop: [push]
    appends at the end of [chatHistory]. *)
Definition pushTurn (chatHistory : list Content) (msg : Message) : list Content :=
  if sender msg =? "user" then
    chatHistory ++ [ {| role := "user"; parts := [ {| part_text := text msg |} ] |} ]
  else if sender msg =? "bot" then
    chatHistory ++ [ {| role := "model"; parts := [ {| part_text := text msg |} ] |} ]
  else chatHistory.

Definition buildHistoryForGemini (history : option (list Message)) (newMessage : string)
  : list Content :=
  let chatHistory := fold_left pushTurn (match history with Some h => h | None => [] end) [] in
  chatHistory ++ [ {| role := "user"; parts := [ {| part_text := newMessage |} ] |} ].

(** The turn a recognised sender is translated to. *)
Definition userTurn (t : string) : Content :=
  {| role := "user"; parts := [ {| part_text := t |} ] |}.

Definition knownSender (m : Message) : bool :=
  (sender m =? "user") || (sender m =? "bot").

(* ------------------------------------------------------------------ *)
(** ** Errors, completions and the outside world *)

(** A thrown value, as far as the handler reads it: its [message]. *)
Record JsError := { message : option string }.

Definition newError (m : string) : JsError := {| message := Some m |}.

(** How an evaluation ends: with a value, or with a thrown error. *)
Inductive Completion (T : Type) : Type :=
| Returned (v : T)
| Threw (e : JsError).
Arguments Returned {T} v.
Arguments Threw {T} e.

(** What the upstream SDK hands back: [result.response] is awaited and may
    reject, [response.text()] may throw. *)
Record Response := { response_text : Completion string }.
Record GenResult := { response : Completion Response }.

(** The three kinds of call on the SDK.  A model handle obtained from
    [genAI.getGenerativeModel({ model: name })] is identified with [name]; a
    chat session with the model and the history it was started from.
    [GenerateContent] and [SendMessage] go to the service; [StartChat] builds
    the session object and its answer only tells whether that throws. *)
Inductive Call : Type :=
| GenerateContent (model : string) (prompt : string)
| StartChat (model : string) (history : list Content)
| SendMessage (model : string) (history : list Content) (msg : string).

(** What the handler does to the outside world, in order. *)
Inductive Event : Type :=
| Called (c : Call)
| Slept (ms : Z).

(** The process-wide cache and the trace so far. *)
Record State := { cachedModelName : option string; trace : list Event }.

Definition record (ev : Event) (st : State) : State :=
  {| cachedModelName := cachedModelName st; trace := trace st ++ [ev] |}.

Definition setCache (name : option string) (st : State) : State :=
  {| cachedModelName := name; trace := trace st |}.

(** An [async] computation. *)
Definition Async (T : Type) : Type := State -> Completion T * State.

Definition ret {T} (v : T) : Async T := fun st => (Returned v, st).

Definition throw {T} (e : JsError) : Async T := fun st => (Threw e, st).

Definition bind {A B} (m : Async A) (k : A -> Async B) : Async B :=
  fun st =>
    match m st with
    | (Returned v, st') => k v st'
    | (Threw e, st') => (Threw e, st')
    end.

(** [try { m } catch (e) { h(e) }] *)
Definition tryCatch {A} (m : Async A) (h : JsError -> Async A) : Async A :=
  fun st =>
    match m st with
    | (Returned v, st') => (Returned v, st')
    | (Threw e, st') => h e st'
    end.

Notation "x <- m ;; k" := (bind m (fun x => k))
  (at level 100, m at next level, right associativity).

(** [await new Promise(resolve => setTimeout(resolve, delay))] *)
Definition sleep (delay : Z) : Async unit :=
  fun st => (Returned tt, record (Slept delay) st).

(** The ranked candidates  (server.js, lines 82-89). *)
Definition modelNames : list string :=
  [ "gemini-2.5-flash";
    "gemini-2.5-pro";
    "gemini-flash-latest";
    "gemini-pro-latest";
    "gemini-2.0-flash-001";
    "gemini-2.0-flash" ].

(* ------------------------------------------------------------------ *)
(** ** retryWithBackoff  (server.js, lines 61-79) *)

(** [error.message?.includes("503") || error.message?.includes("overloaded")
     || error.message?.includes("Service Unavailable")] *)
Definition isOverloaded (error : JsError) : bool :=
  match message error with
  | Some m => includes m "503" || includes m "overloaded" || includes m "Service Unavailable"
  | None => false
  end.

(** The [for (let attempt = 0; attempt < maxRetries; attempt++)] loop, by
    recursion on the iterations that remain, [maxRetries - attempt] of them.
    Falling off the loop returns [undefined].  Every call site passes both
    [maxRetries] and [baseDelay], so the parameter defaults are not modelled. *)
Fixpoint retryLoop {T} (fn : Async T) (maxRetries baseDelay : Z)
         (remaining : nat) (attempt : Z) : Async (option T) :=
  match remaining with
  | O => ret None
  | S remaining' =>
      fun st =>
        match fn st with
        | (Returned v, st') => (Returned (Some v), st')
        | (Threw error, st') =>
            if isOverloaded error && (attempt <? maxRetries - 1)%Z then
              let delay := (baseDelay * 2 ^ attempt)%Z in
              retryLoop fn maxRetries baseDelay remaining' (attempt + 1)%Z
                        (snd (sleep delay st'))
            else (Threw error, st')
        end
  end.

Definition retryWithBackoff {T} (fn : Async T) (maxRetries baseDelay : Z)
  : Async (option T) :=
  retryLoop fn maxRetries baseDelay (Z.to_nat maxRetries) 0%Z.

(* ------------------------------------------------------------------ *)
(** ** Error classification  (server.js, lines 197-213) *)

Definition msgOverloaded : string :=
  "The AI model is currently overloaded. Please try again in a few moments. The system will automatically retry with different models.".
Definition msgNotFound : string :=
  "Model not found. Please check your API key has access to the requested model.".
Definition msgUnauthorized : string :=
  "Invalid API key. Please check your GEMINI_API_KEY in .env file.".
Definition msgForbidden : string :=
  "API key doesn't have permission to access this model.".
Definition msgRateLimited : string :=
  "Rate limit exceeded. Please wait a moment before trying again.".
Definition msgDefault : string :=
  "Error communicating with Gemini API".

(** The cascade applied to a truthy [err.message]. *)
Definition classifyMessage (m : string) : string :=
  if includes m "503" || includes m "overloaded" || includes m "Service Unavailable"
  then msgOverloaded
  else if includes m "404" || includes m "not found" then msgNotFound
  else if includes m "401" || includes m "API key" then msgUnauthorized
  else if includes m "403" then msgForbidden
  else if includes m "429" || includes m "rate limit" then msgRateLimited
  else m.

(** The [errorMessage] the [catch] block sends. *)
Definition errorMessage (err : JsError) : string :=
  if truthyOpt (message err)
  then match message err with
       | Some m => classifyMessage m
       | None => msgDefault
       end
  else msgDefault.

(* ------------------------------------------------------------------ *)
(** ** The handler of [POST /api/chat]  (server.js, lines 40-217) *)

(** The request body, as destructured: [message] and [history] ([userId] is
    not read).  A [history] that is not an array is [None]. *)
Record Request := {
  req_message : option string;
  req_history : option (list Message)
}.

Inductive Body : Type :=
| ReplyBody (reply : string)
| ErrorBody (error : string).

Record HttpResponse := { status : Z; body : Body }.

(** The handler's locals during model resolution. *)
Record Resolution := {
  model : option string;
  modelName : option string;
  lastError : option JsError
}.

(** [Array.isArray(history) ? history.slice(-30) : []]  (lines 52-55) *)
Definition trimmedHistoryOf (history : option (list Message)) : list Message :=
  match history with
  | Some h => sliceLast 30 h
  | None => []
  end.

(** The message thrown when no model could be resolved  (line 146). *)
Definition noModelMessage (lastError : option JsError) : string :=
  ("No available Gemini model found. All models are either unavailable or overloaded. Last error: "
   ++ orElse (match lastError with Some e => message e | None => None end) "Unknown"
   ++ ". Please try again in a few moments.")%string.

(** One line of the flattened transcript  (line 181). *)
Definition transcriptLine (m : Message) : string :=
  ((if sender m =? "user" then "User" else "Assistant") ++ ": " ++ text m)%string.

(** The prompt of the degraded path  (lines 180-182). *)
Definition fallbackPrompt (trimmedHistory : list Message) (message : string) : string :=
  if (0 <? List.length trimmedHistory)%nat then
    ("Previous conversation:" ++ LF ++ join LF (map transcriptLine trimmedHistory)
     ++ LF ++ LF ++ "User: " ++ message ++ LF ++ "Assistant:")%string
  else message.

(** Reading a property of [undefined] throws a [TypeError]. *)
Definition typeError (prop : string) : JsError :=
  newError ("Cannot read properties of undefined (reading '" ++ prop ++ "')")%string.

(** [conversationHistory[conversationHistory.length - 1].parts[0].text] *)
Definition currentText (conversationHistory : list Content) : Completion string :=
  match rev conversationHistory with
  | [] => Threw (typeError "parts")
  | currentMessage :: _ =>
      match parts currentMessage with
      | [] => Threw (typeError "text")
      | p :: _ => Returned (part_text p)
      end
  end.

(** [const response = await result.response;
     replyText = response.text() || "I couldn't generate a reply."] *)
Definition replyOf (result : option GenResult) : Async string :=
  match result with
  | None => throw (typeError "response")
  | Some r =>
      match response r with
      | Threw e => throw e
      | Returned resp =>
          match response_text resp with
          | Threw e => throw e
          | Returned t => ret (if truthy t then t else "I couldn't generate a reply.")
          end
      end
  end.

Section Handler.

(** The upstream service: what a call answers, given all that happened
    before it. *)
Variable upstream : list Event -> Call -> Completion GenResult.

(** The configured credential, [process.env.GEMINI_API_KEY]. *)
Variable GEMINI_API_KEY : option string.

(** An upstream call: answered by the service, and recorded. *)
Definition call (c : Call) : Async GenResult :=
  fun st => (upstream (trace st) c, record (Called c) st).

(** The liveness probe  (lines 101-104 and 122-125):
    [const testResult = await model.generateContent("test");
     await testResult.response;] *)
Definition probe (name : string) : Async unit :=
  testResult <- call (GenerateContent name "test") ;;
  match response testResult with
  | Returned _ => ret tt
  | Threw e => throw e
  end.

(** Lines 93-113: try the cached model first. *)
Definition tryCached : Async Resolution :=
  fun st =>
    match cachedModelName st with
    | Some name =>
        if truthy name then
          match retryWithBackoff (probe name) 2 500 st with
          | (Returned _, st') =>
              (Returned {| model := Some name; modelName := Some name; lastError := None |}, st')
          | (Threw _, st') =>
              (Returned {| model := None; modelName := None; lastError := None |},
               setCache None st')
          end
        else (Returned {| model := None; modelName := Some name; lastError := None |}, st)
    | None => (Returned {| model := None; modelName := None; lastError := None |}, st)
    end.

(** Lines 117-142: the walk over the candidates, from the locals [r]. *)
Fixpoint walkCandidates (names : list string) (r : Resolution) : Async Resolution :=
  match names with
  | [] => ret r
  | name :: rest =>
      fun st =>
        match retryWithBackoff (probe name) 2 500 st with
        | (Returned _, st') =>
            (Returned {| model := Some name; modelName := Some name;
                         lastError := lastError r |},
             setCache (Some name) st')
        | (Threw err, st') =>
            walkCandidates rest
              {| model := Some name; modelName := modelName r; lastError := Some err |} st'
        end
  end.

(** [!model || !modelName] *)
Definition unresolved (r : Resolution) : bool :=
  match model r, modelName r with
  | Some _, Some n => negb (truthy n)
  | _, _ => true
  end.

(** Lines 91-147: the resolved model handle, or the composite failure. *)
Definition resolveModel : Async string :=
  r0 <- tryCached ;;
  r <- (if unresolved r0 then walkCandidates modelNames r0 else ret r0) ;;
  if unresolved r then throw (newError (noModelMessage (lastError r)))
  else match model r with
       | Some m => ret m
       | None => throw (newError (noModelMessage (lastError r)))
       end.

(** Lines 151-176: the chat session, or the direct call without history. *)
Definition chatPath (m : string) (conversationHistory : list Content)
           (message : string) : Async string :=
  let historyForChat := sliceInit conversationHistory in
  if (0 <? List.length historyForChat)%nat then
    _ <- call (StartChat m historyForChat) ;;
    result <- retryWithBackoff
                (fun st => match currentText conversationHistory with
                           | Returned t => call (SendMessage m historyForChat t) st
                           | Threw e => (Threw e, st)
                           end) 3 1000 ;;
    replyOf result
  else
    result <- retryWithBackoff (call (GenerateContent m message)) 3 1000 ;;
    replyOf result.

(** Lines 177-190: the degraded path. *)
Definition fallbackPath (m : string) (trimmedHistory : list Message)
           (message : string) : Async string :=
  result <- retryWithBackoff
              (call (GenerateContent m (fallbackPrompt trimmedHistory message))) 3 1000 ;;
  replyOf result.

(** Lines 149-190. *)
Definition invoke (m : string) (trimmedHistory : list Message)
           (conversationHistory : list Content) (message : string) : Async string :=
  tryCatch (chatPath m conversationHistory message)
           (fun chatError => fallbackPath m trimmedHistory message).

(** The whole handler: the response sent and the state left behind. *)
Definition chatHandler (req : Request) (st : State) : HttpResponse * State :=
  match req_message req with
  | None => ({| status := 400; body := ErrorBody "message is required" |}, st)
  | Some message =>
      if negb (truthy message) || negb (truthy (trim message)) then
        ({| status := 400; body := ErrorBody "message is required" |}, st)
      else if negb (truthyOpt GEMINI_API_KEY) then
        ({| status := 500; body := ErrorBody "Gemini API key not configured" |}, st)
      else
        let trimmedHistory := trimmedHistoryOf (req_history req) in
        let conversationHistory :=
          buildHistoryForGemini (Some trimmedHistory) (trim message) in
        match (m <- resolveModel ;;
               invoke m trimmedHistory conversationHistory (trim message)) st with
        | (Returned replyText, st') =>
            ({| status := 200; body := ReplyBody replyText |}, st')
        | (Threw err, st') =>
            ({| status := 500; body := ErrorBody (errorMessage err) |}, st')
        end
  end.

End Handler.

(* ------------------------------------------------------------------ *)
(** ** Vocabulary of the statements *)

(** [p] occurs in [s], code unit for code unit. *)
Definition Occurs (p s : string) : Prop :=
  exists a b : string, s = (a ++ p ++ b)%string.

(** Letter case: the lower-case form of a string. *)
Definition toLowerAscii (c : ascii) : ascii :=
  let n := nat_of_ascii c in
  if (65 <=? n)%nat && (n <=? 90)%nat then ascii_of_nat (n + 32) else c.

Fixpoint toLowerCase (s : string) : string :=
  match s with
  | EmptyString => EmptyString
  | String c s' => String (toLowerAscii c) (toLowerCase s')
  end.

(** The turn a history entry with a recognised sender becomes. *)
Definition turnOf (m : Message) : Content :=
  {| role := if sender m =? "user" then "user" else "model";
     parts := [ {| part_text := text m |} ] |}.

(** The upstream calls of a trace, in order. *)
Fixpoint callsOf (l : list Event) : list Call :=
  match l with
  | [] => []
  | Called c :: l' => c :: callsOf l'
  | Slept _ :: l' => callsOf l'
  end.

(** The delays slept in a trace, in order. *)
Fixpoint sleepsOf (l : list Event) : list Z :=
  match l with
  | [] => []
  | Called _ :: l' => sleepsOf l'
  | Slept ms :: l' => ms :: sleepsOf l'
  end.

Section Attempts.

Context {T : Type}.
Variable fn : Async T.
Variable baseDelay : Z.
Variable st0 : State.

(** The state in which execution number [i] (from 0) of [fn] starts, when
    every earlier execution was followed by its back-off sleep. *)
Fixpoint stateBefore (i : nat) : State :=
  match i with
  | O => st0
  | S j => record (Slept (baseDelay * 2 ^ Z.of_nat j)) (snd (fn (stateBefore j)))
  end.

(** Execution [i] throws an error that reads as overload. *)
Definition failsOverloaded (i : nat) : Prop :=
  exists e, fst (fn (stateBefore i)) = Threw e /\ isOverloaded e = true.

End Attempts.

(** An operation that makes the one upstream call [c], and leaves the cache
    alone. *)
Definition MakesCall {T} (fn : Async T) (c : Call) : Prop :=
  forall st, cachedModelName (snd (fn st)) = cachedModelName st
             /\ trace (snd (fn st)) = trace st ++ [Called c].

(** What a raw failure message reads as, category by category. *)
Definition ReadsOverloaded (m : string) : Prop :=
  Occurs "503" m \/ Occurs "overloaded" m \/ Occurs "Service Unavailable" m.
Definition ReadsNotFound (m : string) : Prop :=
  Occurs "404" m \/ Occurs "not found" m.
Definition ReadsUnauthorized (m : string) : Prop :=
  Occurs "401" m \/ Occurs "API key" m.
Definition ReadsForbidden (m : string) : Prop :=
  Occurs "403" m.
Definition ReadsRateLimited (m : string) : Prop :=
  Occurs "429" m \/ Occurs "rate limit" m.

(** A message that is absent, empty or white space only. *)
Definition Blank (message : option string) : Prop :=
  match message with
  | None => True
  | Some m => forall c, In c (list_ascii_of_string m) -> isWhiteSpace c = true
  end.

(** The candidate walk of [resolveModel] and the check that follows it, from
    the locals [r0]. *)
Definition walkAndCheck (upstream : list Event -> Call -> Completion GenResult)
           (r0 : Resolution) : Async string :=
  r <- walkCandidates upstream modelNames r0 ;;
  if unresolved r then throw (newError (noModelMessage (lastError r)))
  else match model r with
       | Some m => ret m
       | None => throw (newError (noModelMessage (lastError r)))
       end.

(** The locals hold no usable model name. *)
Definition noName (r : Resolution) : Prop :=
  match modelName r with
  | Some n => truthy n = false
  | None => True
  end.

(** The response the handler sends for a completion of its [try] block. *)
Definition respond (c : Completion string * State) : HttpResponse * State :=
  match c with
  | (Returned replyText, st') => ({| status := 200; body := ReplyBody replyText |}, st')
  | (Threw err, st') => ({| status := 500; body := ErrorBody (errorMessage err) |}, st')
  end.

(** *** Upstream services used as concrete inputs *)

Definition okResult (t : string) : GenResult :=
  {| response := Returned {| response_text := Returned t |} |}.

(** Every call is answered with the text [t]. *)
Definition alwaysReplies (t : string) : list Event -> Call -> Completion GenResult :=
  fun _ _ => Returned (okResult t).

(** Every call fails with the message [m]. *)
Definition alwaysFails (m : string) : list Event -> Call -> Completion GenResult :=
  fun _ _ => Threw (newError m).

(** The first [n] calls fail with [m], the later ones answer [t]. *)
Definition failsFirst (n : nat) (m t : string) : list Event -> Call -> Completion GenResult :=
  fun tr _ =>
    if (List.length (callsOf tr) <? n)%nat then Threw (newError m) else Returned (okResult t).

(** Probes and plain completions answer [t]; chat sessions cannot be started. *)
Definition noChat (t : string) : list Event -> Call -> Completion GenResult :=
  fun _ c =>
    match c with
    | GenerateContent _ _ => Returned (okResult t)
    | _ => Threw (newError "First content should be with role 'user', got model")
    end.

Definition emptyState : State := {| cachedModelName := None; trace := [] |}.

Definition cachedState (name : string) : State :=
  {| cachedModelName := Some name; trace := [] |}.

Definition userMsg (t : string) : Message := {| sender := "user"; text := t |}.
Definition botMsg (t : string) : Message := {| sender := "bot"; text := t |}.

(** A history of [n] user messages numbered by their text length. *)
Fixpoint longHistory (n : nat) : list Message :=
  match n with
  | O => []
  | S k => userMsg (String.concat "" (repeat "x" n)) :: longHistory k
  end.

(** *** Measures of a run *)

Fixpoint sumZ (l : list Z) : Z :=
  match l with
  | [] => 0%Z
  | x :: l' => (x + sumZ l')%Z
  end.

(** The number of upstream calls made so far. *)
Definition nCalls (st : State) : nat := List.length (callsOf (trace st)).

(** The time slept so far, in milliseconds. *)
Definition slept (st : State) : Z := sumZ (sleepsOf (trace st)).

(** A computation that makes at most [a] upstream calls and sleeps at most
    [b] milliseconds, from whatever state. *)
Definition Costs {T} (m : Async T) (a : nat) (b : Z) : Prop :=
  forall st,
    nCalls st <= nCalls (snd (m st)) <= nCalls st + a
    /\ (slept st <= slept (snd (m st)) <= slept st + b)%Z.

(** A computation that leaves [cachedModelName] alone. *)
Definition KeepsCache {T} (m : Async T) : Prop :=
  forall st, cachedModelName (snd (m st)) = cachedModelName st.

(** The cache is empty or names one of the ranked candidates. *)
Definition CacheIsCandidate (st : State) : Prop :=
  cachedModelName st = None
  \/ exists n, cachedModelName st = Some n /\ In n modelNames.

(** A service whose answer to a call does not depend on what happened
    before. *)
Definition Stateless (upstream : list Event -> Call -> Completion GenResult) : Prop :=
  forall tr tr' c, upstream tr c = upstream tr' c.

(** The probe of [name] succeeds against a stateless service. *)
Definition probeOk (upstream : list Event -> Call -> Completion GenResult)
           (name : string) : bool :=
  match upstream [] (GenerateContent name "test") with
  | Returned r => match response r with Returned _ => true | Threw _ => false end
  | Threw _ => false
  end.

(** Only the models of [names] exist; calls on any other fail with a 404. *)
Definition availableOnly (names : list string)
  : list Event -> Call -> Completion GenResult :=
  fun _ c =>
    let m := match c with
             | GenerateContent m _ => m
             | StartChat m _ => m
             | SendMessage m _ _ => m
             end in
    if existsb (String.eqb m) names then Returned (okResult "ok")
    else Threw (newError "404 not found").

(** Every call is answered "503 overloaded", except the calls whose number
    (from 0) is in [ks]. *)
Definition overloadedExcept (ks : list nat)
  : list Event -> Call -> Completion GenResult :=
  fun tr _ =>
    if existsb (Nat.eqb (List.length (callsOf tr))) ks then Returned (okResult "ok")
    else Threw (newError "503 overloaded").

(* ------------------------------------------------------------------ *)
(** ** The diagnostic endpoints  (server.js, lines 219-347) *)

From Stdlib Require DecimalString.

(** A number in a template literal: its decimal digits. *)
Definition decimal (n : nat) : string :=
  DecimalString.NilEmpty.string_of_uint (Nat.to_uint n).

(** [s] without its first [n] code units. *)
Fixpoint dropN (n : nat) (s : string) : string :=
  match n, s with
  | O, _ => s
  | S n', String _ s' => dropN n' s'
  | S _, EmptyString => EmptyString
  end.

(** [s.replace(pat, rep)] with a string pattern: the first occurrence of
    [pat] is replaced ([rep] holds no [$]). *)
Fixpoint replaceFirst (s pat rep : string) : string :=
  if String.prefix pat s then (rep ++ dropN (String.length pat) s)%string
  else match s with
       | EmptyString => EmptyString
       | String c s' => String c (replaceFirst s' pat rep)
       end.

(** An entry of the model list served by the REST API, as far as it is read:
    [m.name]. *)
Record ModelInfo := { info_name : option string }.

(** The parsed body of the model list: [data.models]. *)
Record ModelsData := { data_models : option (list ModelInfo) }.

(** What [fetch] resolves to: [response.ok], [response.text()] and
    [response.json()]; the last two may reject. *)
Record FetchResponse := {
  ok : bool;
  fetch_text : Completion string;
  fetch_json : Completion ModelsData
}.

(** [https://generativelanguage.googleapis.com/${version}/models?key=${apiKey}] *)
Definition modelsUrl (version apiKey : string) : string :=
  ("https://generativelanguage.googleapis.com/" ++ version ++ "/models?key=" ++ apiKey)%string.

(** [(m.name || "").replace('models/', '')]  (lines 249-252 and 286-289) *)
Definition stripModelsPrefix (m : ModelInfo) : string :=
  replaceFirst (orElse (info_name m) "") "models/" "".

(** [data.models || []] *)
Definition modelsOf (data : ModelsData) : list ModelInfo :=
  match data_models data with
  | Some l => l
  | None => []
  end.

(** The body of a response of [/api/list-models], shape by shape:
    [{ error }], [{ error, details, suggestion }],
    [{ apiVersion, totalModels, models, modelNames, suggestion }] and the
    [{ error: err.message, stack }] of the [catch] block (the stack is not
    modelled). *)
Inductive ListModelsBody : Type :=
| ListError (error : string)
| ListFetchFailed (error details suggestion : string)
| ListOk (apiVersion : string) (totalModels : nat) (models : list ModelInfo)
         (modelNames : list string) (suggestion : string)
| ListCaught (error : option string).

Record ListModelsResponse := { list_status : Z; list_body : ListModelsBody }.

(** An entry of [results] in [/api/test-models]: the [status] and [message]
    of an entry are fixed by its shape,
    [{ model, status: "success", response, message }] or
    [{ model, status: "failed", error: err.message, message }]. *)
Inductive TestResult : Type :=
| TestSuccess (model response : string)
| TestFailed (model : string) (error : option string).

Definition result_status (r : TestResult) : string :=
  match r with
  | TestSuccess _ _ => "success"
  | TestFailed _ _ => "failed"
  end.

Definition result_model (r : TestResult) : string :=
  match r with
  | TestSuccess m _ => m
  | TestFailed m _ => m
  end.

Record TestSummary := {
  total : nat;
  working : nat;
  workingModels : list string;
  recommendation : string
}.

Inductive TestModelsBody : Type :=
| TestError (error : string)
| TestReport (availableModelsFromAPI : list string) (results : list TestResult)
             (summary : TestSummary).

Record TestModelsResponse := { test_status : Z; test_body : TestModelsBody }.

(** The names tried when the API lists no model  (lines 298-304). *)
Definition defaultTestModels : list string :=
  [ "gemini-2.5-flash";
    "gemini-2.5-pro";
    "gemini-flash-latest";
    "gemini-pro-latest";
    "gemini-2.0-flash-001" ].

Section Diagnostics.

(** The network: what a [fetch] of a URL resolves to, given the URLs fetched
    before it. *)
Variable fetch : list string -> string -> Completion FetchResponse.

Variable upstream : list Event -> Call -> Completion GenResult.

(** Lines 230-237 and 280-283: ask v1beta, and v1 when the answer is not ok.
    Returns the last response, the API version it came from and the URLs
    fetched. *)
Definition fetchModelList (apiKey : string)
  : Completion (FetchResponse * string) * list string :=
  match fetch [] (modelsUrl "v1beta" apiKey) with
  | Threw err => (Threw err, [modelsUrl "v1beta" apiKey])
  | Returned response =>
      if negb (ok response) then
        match fetch [modelsUrl "v1beta" apiKey] (modelsUrl "v1" apiKey) with
        | Threw err => (Threw err, [modelsUrl "v1beta" apiKey; modelsUrl "v1" apiKey])
        | Returned response' =>
            (Returned (response', "v1"),
             [modelsUrl "v1beta" apiKey; modelsUrl "v1" apiKey])
        end
      else (Returned (response, "v1beta"), [modelsUrl "v1beta" apiKey])
  end.

(** [GET /api/list-models]  (lines 220-266): the response and the URLs
    fetched. *)
Definition listModels (GEMINI_API_KEY : option string)
  : ListModelsResponse * list string :=
  match GEMINI_API_KEY with
  | None => ({| list_status := 500; list_body := ListError "GEMINI_API_KEY not set" |}, [])
  | Some apiKey =>
      if negb (truthy apiKey) then
        ({| list_status := 500; list_body := ListError "GEMINI_API_KEY not set" |}, [])
      else
        match fetchModelList apiKey with
        | (Threw err, urls) =>
            ({| list_status := 500; list_body := ListCaught (message err) |}, urls)
        | (Returned (response, apiVersion), urls) =>
            if negb (ok response) then
              match fetch_text response with
              | Threw err =>
                  ({| list_status := 500; list_body := ListCaught (message err) |}, urls)
              | Returned errorText =>
                  ({| list_status := 500;
                      list_body :=
                        ListFetchFailed
                          "Failed to fetch models" errorText
                          "Please verify your API key is correct and has proper permissions" |},
                   urls)
              end
            else
              match fetch_json response with
              | Threw err =>
                  ({| list_status := 500; list_body := ListCaught (message err) |}, urls)
              | Returned data =>
                  let modelNames := map stripModelsPrefix (modelsOf data) in
                  ({| list_status := 200;
                      list_body :=
                        ListOk apiVersion (List.length modelNames) (modelsOf data) modelNames
                               (if (0 <? List.length modelNames)%nat
                                then ("Try using one of these models: "
                                      ++ join ", " (firstn 3 modelNames))%string
                                else "No models found. Check your API key.") |},
                   urls)
              end
        end
  end.

(** Lines 277-293: the names the API lists that hold "gemini"; none when the
    list cannot be had. *)
Definition availableModelsOf (apiKey : string) : list string * list string :=
  match fetchModelList apiKey with
  | (Threw _, urls) => ([], urls)
  | (Returned (listResponse, _), urls) =>
      if ok listResponse then
        match fetch_json listResponse with
        | Threw _ => ([], urls)
        | Returned listData =>
            (filter (fun name => truthy name && includes name "gemini")
                    (map stripModelsPrefix (modelsOf listData)),
             urls)
        end
      else ([], urls)
  end.

(** Lines 296-304. *)
Definition modelsToTestOf (availableModels : list string) : list string :=
  if (0 <? List.length availableModels)%nat then firstn 5 availableModels
  else defaultTestModels.

(** One iteration of the loop of lines 307-327: a single [generateContent("Hi")],
    not retried, and the entry pushed for it. *)
Definition testOne (results : list TestResult) (name : string) (st : State)
  : list TestResult * State :=
  match call upstream (GenerateContent name "Hi") st with
  | (Returned result, st') =>
      match response result with
      | Returned resp =>
          match response_text resp with
          | Returned responseText =>
              (results ++ [TestSuccess name (String.substring 0 100 responseText)], st')
          | Threw err => (results ++ [TestFailed name (message err)], st')
          end
      | Threw err => (results ++ [TestFailed name (message err)], st')
      end
  | (Threw err, st') => (results ++ [TestFailed name (message err)], st')
  end.

Fixpoint testAll (modelsToTest : list string) (results : list TestResult) (st : State)
  : list TestResult * State :=
  match modelsToTest with
  | [] => (results, st)
  | name :: rest =>
      let (results', st') := testOne results name st in
      testAll rest results' st'
  end.

(** Lines 329-342. *)
Definition summaryOf (availableModels : list string) (results : list TestResult)
  : TestSummary :=
  let workingModels := filter (fun r => result_status r =? "success") results in
  {| total := List.length results;
     working := List.length workingModels;
     workingModels := map result_model workingModels;
     recommendation :=
       match workingModels with
       | w :: _ => ("Use model: " ++ result_model w)%string
       | [] =>
           if (0 <? List.length availableModels)%nat then
             ("Found " ++ decimal (List.length availableModels)
              ++ " models from API but none worked. Try visiting /api/list-models to see details.")%string
           else
             "No working models found. Please check your API key. Visit /api/list-models to see available models."
       end |}.

(** [GET /api/test-models]  (lines 269-347): the response, the state left
    and the URLs fetched. *)
Definition testModels (GEMINI_API_KEY : option string) (st : State)
  : TestModelsResponse * State * list string :=
  match GEMINI_API_KEY with
  | None =>
      ({| test_status := 500; test_body := TestError "GEMINI_API_KEY not set" |}, st, [])
  | Some apiKey =>
      if negb (truthy apiKey) then
        ({| test_status := 500; test_body := TestError "GEMINI_API_KEY not set" |}, st, [])
      else
        let (availableModels, urls) := availableModelsOf apiKey in
        let (results, st') := testAll (modelsToTestOf availableModels) [] st in
        ({| test_status := 200;
            test_body := TestReport availableModels results
                                    (summaryOf availableModels results) |},
         st', urls)
  end.

End Diagnostics.

(** *** Networks used as concrete inputs *)

Definition modelList (names : list string) : FetchResponse :=
  {| ok := true;
     fetch_text := Returned "";
     fetch_json :=
       Returned {| data_models := Some (map (fun n => {| info_name := Some n |}) names) |} |}.

Definition notOk (t : string) : FetchResponse :=
  {| ok := false; fetch_text := Returned t; fetch_json := Threw (newError "Unexpected token") |}.

(** Every fetch is answered with the list [names]. *)
Definition serves (names : list string) : list string -> string -> Completion FetchResponse :=
  fun _ _ => Returned (modelList names).

(** The first fetch is refused, the second is answered with [names]. *)
Definition servesOnV1 (names : list string) : list string -> string -> Completion FetchResponse :=
  fun fetched _ =>
    match fetched with
    | [] => Returned (notOk "Not Found")
    | _ => Returned (modelList names)
    end.

(** No network. *)
Definition offline : list string -> string -> Completion FetchResponse :=
  fun _ _ => Threw (newError "fetch failed").

(* ------------------------------------------------------------------ *)
(** ** The browser client of [/api/chat]  (the script quoted at the end of
       DEPLOYMENT.md, lines 249-267 and 471-530)

    Of the page only what decides the requests is modelled: the local
    [conversationHistory] and whether a user is logged in.  What is written to
    the page is left out.  The request is delivered to the handler and its
    response delivered back. *)

Record Client := {
  conversationHistory : list Message;
  currentUser : bool
}.

(** [addMessageToUI(text, sender)], as far as the history goes:
    [conversationHistory.push({ sender, text })]. *)
Definition addMessageToUI (text sender : string) (c : Client) : Client :=
  {| conversationHistory := conversationHistory c ++ [ {| sender := sender; text := text |} ];
     currentUser := currentUser c |}.

(** [err.message] inside a template literal or a concatenation. *)
Definition shown (m : option string) : string :=
  match m with
  | Some s => s
  | None => "undefined"
  end.

(** The body the client posts: [{ message, history: conversationHistory.slice(-30), userId }]. *)
Definition clientRequest (c : Client) (message : string) : Request :=
  {| req_message := Some message;
     req_history := Some (sliceLast 30 (conversationHistory c)) |}.

(** [res.ok] *)
Definition resOk (res : HttpResponse) : bool :=
  (200 <=? status res)%Z && (status res <=? 299)%Z.

Section BrowserClient.

(** The server the page talks to. *)
Variable server : Request -> State -> HttpResponse * State.

(** [saveMessageToFirestore(user, sender, text)]: it returns, or rethrows what
    the store threw. *)
Variable saveMessageToFirestore : string -> string -> Completion unit.

(** The [catch] block of [sendMessage]. *)
Definition reportError (err : JsError) (c : Client) : Client :=
  addMessageToUI ("Sorry, I encountered an error: " ++ shown (message err))%string "bot" c.

(** [sendMessage(message)]  (lines 471-520): the client and the server state
    afterwards. *)
Definition sendMessage (message : string) (c : Client) (st : State) : Client * State :=
  if negb (currentUser c) then (c, st)
  else
    match saveMessageToFirestore "user" message with
    | Threw err => (reportError err c, st)
    | Returned _ =>
        let (res, st') := server (clientRequest c message) st in
        if negb (resOk res) then
          let error := match body res with
                       | ErrorBody e => Some e
                       | ReplyBody _ => None
                       end in
          (reportError (newError (orElse error "Server error")) c, st')
        else
          let reply := match body res with
                       | ReplyBody r => Some r
                       | ErrorBody _ => None
                       end in
          let botReply := orElse reply "I couldn't generate a reply." in
          let c' := addMessageToUI botReply "bot" c in
          match saveMessageToFirestore "bot" botReply with
          | Threw err => (reportError err c', st')
          | Returned _ => (c', st')
          end
    end.

(** The [submit] listener of the form  (lines 522-530), on the text typed. *)
Definition submit (typed : string) (c : Client) (st : State) : Client * State :=
  let text := trim typed in
  if negb (truthy text) || negb (currentUser c) then (c, st)
  else sendMessage text (addMessageToUI text "user" c) st.

End BrowserClient.

(** The store takes every message. *)
Definition storeOk : string -> string -> Completion unit := fun _ _ => Returned tt.

(** What a single call [c], retried under [retryWithBackoff], has left in
    the trace after [j] failed executions: each execution and the back-off
    sleep that followed it. *)
Fixpoint retriedTrace (c : Call) (baseDelay : Z) (j : nat) : list Event :=
  match j with
  | O => []
  | S k => retriedTrace c baseDelay k ++ [Called c; Slept (baseDelay * 2 ^ Z.of_nat k)]
  end.

(** The state those [j] failed executions leave, from [st]. *)
Definition afterRetries (c : Call) (baseDelay : Z) (st : State) (j : nat) : State :=
  {| cachedModelName := cachedModelName st;
     trace := trace st ++ retriedTrace c baseDelay j |}.

(** A call that goes to the service: [generateContent] and [sendMessage]
    do, [startChat] only builds the session object. *)
Definition isServiceCall (c : Call) : bool :=
  match c with
  | StartChat _ _ => false
  | _ => true
  end.

(** The number of calls that went to the service so far. *)
Definition nServiceCalls (st : State) : nat :=
  List.length (filter isServiceCall (callsOf (trace st))).


(** Probes succeed; every other call fails with [m]. *)
Definition probesOnly (m : string) : list Event -> Call -> Completion GenResult :=
  fun _ c =>
    match c with
    | GenerateContent _ "test" => Returned (okResult "ok")
    | _ => Threw (newError m)
    end.

(* ================================================================== *)
(** * Properties *)

(** ** Strings *)

Lemma prefix_split (p s : string) :
  String.prefix p s = true <-> exists b, s = (p ++ b)%string.
Proof.
  revert s; induction p as [|c p IH]; intros s; split.
  - intros _. exists s. reflexivity.
  - intros _. destruct s; reflexivity.
  - destruct s as [|d s]; simpl; [discriminate|].
    destruct (Ascii.ascii_dec c d) as [->|]; [|discriminate].
    intros H. apply IH in H. destruct H as (b & ->). exists b. reflexivity.
  - intros (b & ->). simpl.
    destruct (Ascii.ascii_dec c c) as [_|n]; [|contradiction].
    apply IH. exists b. reflexivity.
Qed.

(** [includes] decides occurrence. *)
Lemma includes_Occurs (s p : string) : includes s p = true <-> Occurs p s.
Proof.
  induction s as [|c s IH]; cbn [includes].
  - destruct (String.prefix p EmptyString) eqn:E; split; intros H; try reflexivity.
    + apply prefix_split in E. destruct E as (b & E).
      exists EmptyString, b. exact E.
    + discriminate.
    + destruct H as (a & b & H).
      destruct a; simpl in H; [|discriminate].
      assert (String.prefix p EmptyString = true) by (apply prefix_split; exists b; exact H).
      congruence.
  - destruct (String.prefix p (String c s)) eqn:E; split; intros H; try reflexivity.
    + apply prefix_split in E. destruct E as (b & E).
      exists EmptyString, b. exact E.
    + apply IH in H. destruct H as (a & b & ->).
      exists (String c a), b. reflexivity.
    + apply IH. destruct H as (a & b & H).
      destruct a as [|d a]; simpl in H.
      * assert (String.prefix p (String c s) = true) by (apply prefix_split; exists b; exact H).
        congruence.
      * injection H as _ ->. exists a, b. reflexivity.
Qed.

Lemma includes_app (a p b : string) : includes (a ++ p ++ b) p = true.
Proof. apply includes_Occurs. exists a, b. reflexivity. Qed.

Example includes_samples :
  includes "got 503 from upstream" "503" = true
  /\ includes "Service unavailable" "Service Unavailable" = false
  /\ includes "" "" = true.
Proof. repeat split. Qed.

Example trim_samples :
  trim "  how are you? " = "how are you?"
  /\ trim (LF ++ " ") = ""
  /\ trim "hi" = "hi".
Proof. repeat split. Qed.

Lemma string_app_assoc (a b c : string) : ((a ++ b) ++ c = a ++ (b ++ c))%string.
Proof. induction a as [|x a IH]; simpl; [reflexivity | now rewrite IH]. Qed.

Lemma Occurs_self (s : string) : Occurs s s.
Proof.
  exists EmptyString, EmptyString. simpl.
  induction s as [|c s IH]; simpl; [reflexivity | now rewrite <- IH].
Qed.

Lemma Occurs_app_l (p a s : string) : Occurs p s -> Occurs p (a ++ s).
Proof.
  intros (x & y & ->). exists (a ++ x)%string, y. now rewrite string_app_assoc.
Qed.

Lemma Occurs_app_r (p s b : string) : Occurs p s -> Occurs p (s ++ b).
Proof.
  intros (x & y & ->). exists x, (y ++ b)%string. now rewrite !string_app_assoc.
Qed.

Lemma join_Occurs (sep : string) (l : list string) (x : string) :
  In x l -> Occurs x (join sep l).
Proof.
  induction l as [|y l IH]; intros Hin; [contradiction|].
  destruct l as [|z l].
  - destruct Hin as [->|[]]. apply Occurs_self.
  - change (join sep (y :: z :: l)) with (y ++ sep ++ join sep (z :: l))%string.
    destruct Hin as [->|Hin].
    + apply Occurs_app_r, Occurs_self.
    + apply Occurs_app_l, Occurs_app_l, IH, Hin.
Qed.

(* ------------------------------------------------------------------ *)
(** ** The history adapter *)

Lemma knownSender_iff (m : Message) :
  knownSender m = true <-> sender m = "user" \/ sender m = "bot".
Proof.
  unfold knownSender. rewrite orb_true_iff, !String.eqb_eq. reflexivity.
Qed.

(** The loop keeps the recognised entries, translated, in order. *)
Lemma fold_pushTurn (h : list Message) (acc : list Content) :
  fold_left pushTurn h acc = acc ++ map turnOf (filter knownSender h).
Proof.
  revert acc; induction h as [|m h IH]; intros acc; simpl.
  - now rewrite app_nil_r.
  - rewrite IH. unfold pushTurn, knownSender, turnOf.
    destruct (sender m =? "user") eqn:Eu; simpl.
    + rewrite Eu, <- app_assoc. reflexivity.
    + destruct (sender m =? "bot") eqn:Eb; simpl.
      * rewrite Eu, <- app_assoc. reflexivity.
      * reflexivity.
Qed.

Lemma buildHistoryForGemini_eq (h : list Message) (newMessage : string) :
  buildHistoryForGemini (Some h) newMessage
  = map turnOf (filter knownSender h) ++ [userTurn newMessage].
Proof. unfold buildHistoryForGemini. now rewrite fold_pushTurn. Qed.

Lemma filter_all {A} (f : A -> bool) (l : list A) :
  Forall (fun x => f x = true) l -> filter f l = l.
Proof.
  induction 1 as [|x l Hx _ IH]; simpl; [reflexivity|].
  now rewrite Hx, IH.
Qed.

Lemma filter_length_lt {A} (f : A -> bool) (l : list A) :
  Exists (fun x => f x = false) l -> List.length (filter f l) < List.length l.
Proof.
  induction 1 as [x l Hx | x l _ IH]; simpl.
  - rewrite Hx. pose proof (filter_length_le f l). lia.
  - destruct (f x); simpl; lia.
Qed.

Lemma filter_length_all {A} (f : A -> bool) (l : list A) :
  List.length (filter f l) = List.length l -> Forall (fun x => f x = true) l.
Proof.
  induction l as [|x l IH]; simpl; intros H; [constructor|].
  destruct (f x) eqn:E; simpl in H.
  - constructor; [exact E | apply IH; lia].
  - pose proof (filter_length_le f l). lia.
Qed.

(** C5.  For a history whose senders are all "user" or "bot",
    [buildHistoryForGemini] returns one turn per entry, in order, with
    sender user mapped to role user and sender bot to role model, followed
    by a last turn of role user carrying the new message: the length is the
    input length plus one.  The function is a total, state-free function; an
    empty or absent history gives the single turn of the new message. *)
Theorem buildHistoryForGemini_known_senders
  (history : list Message) (newMessage : string)
  (Hsenders : Forall (fun m => sender m = "user" \/ sender m = "bot") history) :
  let out := buildHistoryForGemini (Some history) newMessage in
  List.length out = List.length history + 1
  /\ nth_error out (List.length history) = Some (userTurn newMessage)
  /\ (forall i m, nth_error history i = Some m ->
        exists c, nth_error out i = Some c
                  /\ parts c = [ {| part_text := text m |} ]
                  /\ (sender m = "user" -> role c = "user")
                  /\ (sender m = "bot" -> role c = "model"))
  /\ buildHistoryForGemini (Some []) newMessage = [userTurn newMessage]
  /\ buildHistoryForGemini None newMessage = [userTurn newMessage].
Proof.
  intros out. subst out. rewrite buildHistoryForGemini_eq.
  rewrite filter_all by (eapply Forall_impl; [|exact Hsenders];
                         intros m Hm; now apply knownSender_iff).
  split; [|split; [|split; [|split]]].
  - rewrite length_app, length_map. reflexivity.
  - rewrite nth_error_app2; rewrite length_map; [|lia].
    now rewrite Nat.sub_diag.
  - intros i m Hi. exists (turnOf m). split; [|split; [|split]].
    + rewrite nth_error_app1.
      * now apply map_nth_error.
      * rewrite length_map. apply nth_error_Some. congruence.
    + reflexivity.
    + intros Hu. unfold turnOf; simpl. now rewrite Hu.
    + intros Hb. unfold turnOf; simpl. now rewrite Hb.
  - reflexivity.
  - reflexivity.
Qed.

Lemma buildHistoryForGemini_known_senders_witness :
  List.length (buildHistoryForGemini
                 (Some [userMsg "hi"; botMsg "hello"; userMsg "how are you?"]) "bye") = 3 + 1
  /\ nth_error (buildHistoryForGemini
                  (Some [userMsg "hi"; botMsg "hello"; userMsg "how are you?"]) "bye") 3
     = Some (userTurn "bye").
Proof.
  assert (Hs : Forall (fun m => sender m = "user" \/ sender m = "bot")
                      [userMsg "hi"; botMsg "hello"; userMsg "how are you?"]).
  { repeat (apply Forall_cons; [simpl; auto|]). apply Forall_nil. }
  destruct (buildHistoryForGemini_known_senders _ "bye" Hs) as (H1 & H2 & _).
  split; [exact H1 | exact H2].
Defined.

(** C10.  [buildHistoryForGemini] drops every history entry whose sender is
    neither "user" nor "bot": the output is the translation of the recognised
    entries followed by the user turn of the new message.  Hence a history with
    an unrecognised sender gives an output strictly shorter than the input
    length plus one, and the length is the input length plus one exactly when
    every sender is recognised. *)
Theorem buildHistoryForGemini_drops_unknown
  (history : list Message) (newMessage : string) :
  let out := buildHistoryForGemini (Some history) newMessage in
  out = map turnOf (filter knownSender history) ++ [userTurn newMessage]
  /\ (Exists (fun m => sender m <> "user" /\ sender m <> "bot") history ->
      List.length out < List.length history + 1)
  /\ (List.length out = List.length history + 1 <->
      Forall (fun m => sender m = "user" \/ sender m = "bot") history)
  /\ nth_error out (List.length out - 1) = Some (userTurn newMessage).
Proof.
  intros out. subst out. rewrite buildHistoryForGemini_eq.
  rewrite !length_app, !length_map. simpl.
  split; [reflexivity|]. split; [|split].
  - intros Hex.
    assert (List.length (filter knownSender history) < List.length history); [|lia].
    apply filter_length_lt. eapply Exists_impl; [|exact Hex].
    intros m [Hu Hb]. destruct (knownSender m) eqn:E; [|reflexivity].
    apply knownSender_iff in E. tauto.
  - split.
    + intros Hlen. eapply Forall_impl; [|apply (filter_length_all knownSender)].
      * intros m Hm. now apply knownSender_iff.
      * lia.
    + intros Hall. rewrite filter_all; [reflexivity|].
      eapply Forall_impl; [|exact Hall]. intros m Hm. now apply knownSender_iff.
  - rewrite nth_error_app2; rewrite length_map; [|lia].
    replace (_ - _) with 0 by lia. reflexivity.
Qed.

Lemma buildHistoryForGemini_drops_unknown_witness :
  let history := [userMsg "hi"; {| sender := "system"; text := "be brief" |}; botMsg "ok"] in
  List.length (buildHistoryForGemini (Some history) "bye") < List.length history + 1.
Proof.
  intros history.
  apply (proj1 (proj2 (buildHistoryForGemini_drops_unknown history "bye"))).
  apply Exists_cons_tl, Exists_cons_hd. simpl. split; discriminate.
Defined.

(* ------------------------------------------------------------------ *)
(** ** The retry wrapper *)

Section RetryRuns.

Context {T : Type}.
Variable fn : Async T.
Variables maxRetries baseDelay : Z.
Variable st0 : State.

(** The loop entered at attempt [k], in the state execution [k] starts in,
    with exactly the iterations left that the loop condition allows. *)
Lemma retryLoop_runs (remaining k : nat) :
  Z.of_nat (k + S remaining) = maxRetries ->
  (forall j, j < k -> failsOverloaded fn baseDelay st0 j) ->
  exists i : nat,
    (Z.of_nat i < maxRetries)%Z
    /\ (forall j, j < i -> failsOverloaded fn baseDelay st0 j)
    /\ match fn (stateBefore fn baseDelay st0 i) with
       | (Returned v, st') =>
           retryLoop fn maxRetries baseDelay (S remaining) (Z.of_nat k)
                     (stateBefore fn baseDelay st0 k) = (Returned (Some v), st')
       | (Threw e, st') =>
           (isOverloaded e = false \/ Z.of_nat i = (maxRetries - 1)%Z)
           /\ retryLoop fn maxRetries baseDelay (S remaining) (Z.of_nat k)
                        (stateBefore fn baseDelay st0 k) = (Threw e, st')
       end.
Proof.
  revert k; induction remaining as [|r IH]; intros k Hk Hprev.
  - (* the last iteration *)
    exists k. split; [lia|]. split; [exact Hprev|].
    cbn [retryLoop].
    destruct (fn (stateBefore fn baseDelay st0 k)) as [[v|e] st'] eqn:E.
    + reflexivity.
    + assert (Hlast : (Z.of_nat k <? maxRetries - 1)%Z = false)
        by (apply Z.ltb_ge; lia).
      rewrite Hlast, andb_false_r. split; [right; lia | reflexivity].
  - cbn [retryLoop].
    destruct (fn (stateBefore fn baseDelay st0 k)) as [[v|e] st'] eqn:E.
    + exists k. split; [lia|]. split; [exact Hprev|]. rewrite E. reflexivity.
    + destruct (isOverloaded e) eqn:Eo.
      * assert (Hmore : (Z.of_nat k <? maxRetries - 1)%Z = true)
          by (apply Z.ltb_lt; lia).
        rewrite Hmore. cbn [andb].
        destruct (IH (S k)) as (i & Hi & Hfail & Hres).
        { lia. }
        { intros j Hj. destruct (Nat.eq_dec j k) as [->|Hne].
          - exists e. rewrite E. split; [reflexivity | exact Eo].
          - apply Hprev. lia. }
        exists i. split; [exact Hi|]. split; [exact Hfail|].
        replace (Z.of_nat k + 1)%Z with (Z.of_nat (S k)) by lia.
        cbn [stateBefore] in Hres. rewrite E in Hres. exact Hres.
      * exists k. split; [lia|]. split; [exact Hprev|]. rewrite E.
        cbn [andb]. split; [left; exact Eo | reflexivity].
Qed.

End RetryRuns.

(** C1.  [retryWithBackoff] executes the operation at most [maxRetries]
    times.  Execution [i] (from 0) is reached only when every earlier one
    threw an overload-indicated error, and after execution [j] the wrapper has
    slept [baseDelay * 2^j] before the next one.  The first execution that
    returns, or throws an error without overload indicator, or is number
    [maxRetries - 1], ends the run: its value is returned, or its own error is
    rethrown from the state it left, with no sleep and no further execution.
    With no iteration allowed the operation is never executed. *)
Theorem retryWithBackoff_runs
  {T : Type} (fn : Async T) (maxRetries baseDelay : Z) (st : State) :
  ((maxRetries <= 0)%Z ->
   retryWithBackoff fn maxRetries baseDelay st = (Returned None, st))
  /\ ((1 <= maxRetries)%Z ->
      exists i : nat,
        (Z.of_nat i < maxRetries)%Z
        /\ (forall j, j < i -> failsOverloaded fn baseDelay st j)
        /\ match fn (stateBefore fn baseDelay st i) with
           | (Returned v, st') =>
               retryWithBackoff fn maxRetries baseDelay st = (Returned (Some v), st')
           | (Threw e, st') =>
               (isOverloaded e = false \/ Z.of_nat i = (maxRetries - 1)%Z)
               /\ retryWithBackoff fn maxRetries baseDelay st = (Threw e, st')
           end).
Proof.
  split; intros Hmax; unfold retryWithBackoff.
  - replace (Z.to_nat maxRetries) with 0 by lia. reflexivity.
  - destruct (Z.to_nat maxRetries) as [|r] eqn:Er; [lia|].
    apply (retryLoop_runs fn maxRetries baseDelay st r 0); [lia|].
    intros j Hj. lia.
Qed.

Lemma retryWithBackoff_runs_witness :
  exists i : nat,
    (Z.of_nat i < 2)%Z
    /\ (forall j, j < i ->
          failsOverloaded (probe (failsFirst 1 "503 Service Unavailable" "pong") "gemini-2.5-flash")
                          500 emptyState j)
    /\ match probe (failsFirst 1 "503 Service Unavailable" "pong") "gemini-2.5-flash"
               (stateBefore (probe (failsFirst 1 "503 Service Unavailable" "pong") "gemini-2.5-flash")
                            500 emptyState i) with
       | (Returned v, st') =>
           retryWithBackoff (probe (failsFirst 1 "503 Service Unavailable" "pong") "gemini-2.5-flash")
                            2 500 emptyState = (Returned (Some v), st')
       | (Threw e, st') =>
           (isOverloaded e = false \/ Z.of_nat i = (2 - 1)%Z)
           /\ retryWithBackoff (probe (failsFirst 1 "503 Service Unavailable" "pong") "gemini-2.5-flash")
                               2 500 emptyState = (Threw e, st')
       end.
Proof.
  apply (proj2 (retryWithBackoff_runs
                  (probe (failsFirst 1 "503 Service Unavailable" "pong") "gemini-2.5-flash")
                  2 500 emptyState)).
  lia.
Defined.

(** Three executions and the delays 1000 and 2000 against a service that is
    always overloaded; the last error is what surfaces. *)
Example retry_always_overloaded :
  retryWithBackoff (call (alwaysFails "503 overloaded") (GenerateContent "m" "p")) 3 1000
                   emptyState
  = (Threw (newError "503 overloaded"),
     {| cachedModelName := None;
        trace := [Called (GenerateContent "m" "p"); Slept 1000;
                  Called (GenerateContent "m" "p"); Slept 2000;
                  Called (GenerateContent "m" "p")] |}).
Proof. reflexivity. Qed.

(** One execution, no sleep, on an error without overload indicator. *)
Example retry_not_found :
  retryWithBackoff (call (alwaysFails "404 not found") (GenerateContent "m" "p")) 3 1000
                   emptyState
  = (Threw (newError "404 not found"),
     {| cachedModelName := None; trace := [Called (GenerateContent "m" "p")] |}).
Proof. reflexivity. Qed.

(** Recovery on the second execution. *)
Example retry_recovers :
  retryWithBackoff (call (failsFirst 1 "Service Unavailable" "pong") (GenerateContent "m" "p"))
                   2 500 emptyState
  = (Returned (Some (okResult "pong")),
     {| cachedModelName := None;
        trace := [Called (GenerateContent "m" "p"); Slept 500;
                  Called (GenerateContent "m" "p")] |}).
Proof. reflexivity. Qed.

Lemma callsOf_app (l1 l2 : list Event) : callsOf (l1 ++ l2) = callsOf l1 ++ callsOf l2.
Proof.
  induction l1 as [|[c|ms] l1 IH]; simpl; [reflexivity | now rewrite IH | exact IH].
Qed.

Lemma sleepsOf_app (l1 l2 : list Event) : sleepsOf (l1 ++ l2) = sleepsOf l1 ++ sleepsOf l2.
Proof.
  induction l1 as [|[c|ms] l1 IH]; simpl; [reflexivity | exact IH | now rewrite IH].
Qed.

Lemma call_MakesCall upstream (c : Call) : MakesCall (call upstream c) c.
Proof. intros st. split; reflexivity. Qed.

Lemma probe_MakesCall upstream (name : string) :
  MakesCall (probe upstream name) (GenerateContent name "test").
Proof.
  intros st. unfold probe, bind, call.
  destruct (upstream (trace st) (GenerateContent name "test")) as [r|e]; simpl.
  - destruct (response r); split; reflexivity.
  - split; reflexivity.
Qed.

(** What a retried single call leaves in the trace: between one and
    [remaining] copies of the call, and the doubling delays between them. *)
Lemma retryLoop_trace {T} (fn : Async T) (c : Call) (maxRetries baseDelay : Z) :
  MakesCall fn c ->
  forall (remaining : nat) (attempt : Z) (st : State),
    (0 <= attempt)%Z ->
    (attempt + Z.of_nat remaining = maxRetries)%Z ->
    cachedModelName (snd (retryLoop fn maxRetries baseDelay remaining attempt st))
    = cachedModelName st
    /\ exists n : nat,
        n <= remaining
        /\ (0 < remaining -> 1 <= n)
        /\ callsOf (trace (snd (retryLoop fn maxRetries baseDelay remaining attempt st)))
           = callsOf (trace st) ++ repeat c n
        /\ sleepsOf (trace (snd (retryLoop fn maxRetries baseDelay remaining attempt st)))
           = sleepsOf (trace st)
             ++ map (fun j => (baseDelay * 2 ^ (attempt + Z.of_nat j))%Z) (seq 0 (n - 1)).
Proof.
  intros Hfn. induction remaining as [|r IH]; intros attempt st Hat Hrem; cbn [retryLoop].
  - simpl. split; [reflexivity|]. exists 0. simpl. rewrite !app_nil_r.
    repeat split; lia.
  - destruct (Hfn st) as [Hc Ht].
    destruct (fn st) as [[v|e] st1] eqn:E; simpl in Hc, Ht.
    + simpl. split; [exact Hc|]. exists 1. simpl.
      rewrite Ht, callsOf_app, sleepsOf_app. simpl. rewrite app_nil_r.
      repeat split; lia.
    + destruct (isOverloaded e && (attempt <? maxRetries - 1)%Z) eqn:Eretry.
      * apply andb_true_iff in Eretry. destruct Eretry as [_ Hlt].
        apply Z.ltb_lt in Hlt.
        specialize (IH (attempt + 1)%Z (snd (sleep (baseDelay * 2 ^ attempt) st1))).
        destruct IH as (IHc & n & Hn & Hpos & Hcalls & Hsleeps); [lia | lia |].
        change (snd (sleep (baseDelay * 2 ^ attempt) st1))
          with (record (Slept (baseDelay * 2 ^ attempt)) st1) in *.
        cbn [record cachedModelName trace] in IHc, Hcalls, Hsleeps.
        split; [congruence|].
        assert (Hn1 : 1 <= n) by (apply Hpos; lia).
        exists (S n). split; [lia|]. split; [lia|]. split.
        -- rewrite Hcalls, Ht, !callsOf_app. simpl.
           rewrite app_nil_r, <- app_assoc. reflexivity.
        -- rewrite Hsleeps, Ht, !sleepsOf_app. simpl.
           rewrite app_nil_r, <- app_assoc. f_equal.
           replace (n - 0) with (S (n - 1)) by lia.
           cbn [seq map]. rewrite Z.add_0_r. f_equal.
           rewrite <- seq_shift, map_map. cbn [app]. f_equal.
           apply map_ext. intros j. do 2 f_equal. lia.
      * simpl. split; [exact Hc|]. exists 1. simpl.
        rewrite Ht, callsOf_app, sleepsOf_app. simpl. rewrite app_nil_r.
        repeat split; lia.
Qed.

Lemma retryWithBackoff_trace {T} (fn : Async T) (c : Call) (maxRetries baseDelay : Z)
      (st : State) :
  MakesCall fn c ->
  (1 <= maxRetries)%Z ->
  cachedModelName (snd (retryWithBackoff fn maxRetries baseDelay st)) = cachedModelName st
  /\ exists n : nat,
      1 <= n /\ (Z.of_nat n <= maxRetries)%Z
      /\ callsOf (trace (snd (retryWithBackoff fn maxRetries baseDelay st)))
         = callsOf (trace st) ++ repeat c n
      /\ sleepsOf (trace (snd (retryWithBackoff fn maxRetries baseDelay st)))
         = sleepsOf (trace st)
           ++ map (fun j => (baseDelay * 2 ^ Z.of_nat j)%Z) (seq 0 (n - 1)).
Proof.
  intros Hfn Hmax. unfold retryWithBackoff.
  destruct (retryLoop_trace fn c maxRetries baseDelay Hfn (Z.to_nat maxRetries) 0 st)
    as (Hc & n & Hn & Hpos & Hcalls & Hsleeps); [lia | lia |].
  split; [exact Hc|]. exists n.
  split; [apply Hpos; lia|]. split; [lia|]. split; [exact Hcalls | exact Hsleeps].
Qed.

(** *** Overload detection *)

Lemma isOverloaded_iff (e : JsError) :
  isOverloaded e = true <->
  exists m, message e = Some m
            /\ (Occurs "503" m \/ Occurs "overloaded" m \/ Occurs "Service Unavailable" m).
Proof.
  unfold isOverloaded. destruct (message e) as [m|].
  - rewrite !orb_true_iff, !includes_Occurs. split.
    + intros H. exists m. split; [reflexivity | tauto].
    + intros (m' & Hm & H). injection Hm as <-. tauto.
  - split; [discriminate|]. intros (m & Hm & _). discriminate.
Qed.

(** C4, as stated, fails: two messages that differ in letter case only are
    told apart. *)
Lemma isOverloaded_letter_case_counterexample :
  ~ (forall m1 m2 : string,
       toLowerCase m1 = toLowerCase m2 ->
       isOverloaded (newError m1) = isOverloaded (newError m2)).
Proof.
  intros H.
  specialize (H "The model is OVERLOADED" "The model is overloaded" eq_refl).
  vm_compute in H. discriminate.
Qed.

(** C4, amended.  The overload detection of [retryWithBackoff] is
    case-sensitive: a failure reads as overload exactly when its message
    contains "503", "overloaded" or "Service Unavailable" code unit for code
    unit.  A message carrying an indicator in another letter case, such as
    "OVERLOADED" or "service unavailable", does not read as overload, and the
    failure is rethrown after a single execution. *)
Theorem isOverloaded_case_sensitive :
  (forall e : JsError,
     isOverloaded e = true <->
     exists m, message e = Some m
               /\ (Occurs "503" m \/ Occurs "overloaded" m \/ Occurs "Service Unavailable" m))
  /\ isOverloaded (newError "The model is OVERLOADED") = false
  /\ isOverloaded (newError "service unavailable") = false
  /\ (forall c st,
        retryWithBackoff (call (alwaysFails "The model is OVERLOADED") c) 3 1000 st
        = (Threw (newError "The model is OVERLOADED"), record (Called c) st)).
Proof.
  split; [exact isOverloaded_iff|]. split; [reflexivity|]. split; [reflexivity|].
  intros c st. reflexivity.
Qed.

Lemma isOverloaded_case_sensitive_witness :
  isOverloaded (newError "Error: Service Unavailable (try later)") = true.
Proof.
  apply (proj1 isOverloaded_case_sensitive).
  exists "Error: Service Unavailable (try later)". split; [reflexivity|].
  right; right. exists "Error: ", " (try later)". reflexivity.
Defined.

(* ------------------------------------------------------------------ *)
(** ** Error classification *)

Lemma classifyMessage_cases (m : string) :
  (ReadsOverloaded m -> classifyMessage m = msgOverloaded)
  /\ (~ ReadsOverloaded m -> ReadsNotFound m -> classifyMessage m = msgNotFound)
  /\ (~ ReadsOverloaded m -> ~ ReadsNotFound m -> ReadsUnauthorized m ->
      classifyMessage m = msgUnauthorized)
  /\ (~ ReadsOverloaded m -> ~ ReadsNotFound m -> ~ ReadsUnauthorized m ->
      ReadsForbidden m -> classifyMessage m = msgForbidden)
  /\ (~ ReadsOverloaded m -> ~ ReadsNotFound m -> ~ ReadsUnauthorized m ->
      ~ ReadsForbidden m -> ReadsRateLimited m -> classifyMessage m = msgRateLimited)
  /\ (~ ReadsOverloaded m -> ~ ReadsNotFound m -> ~ ReadsUnauthorized m ->
      ~ ReadsForbidden m -> ~ ReadsRateLimited m -> classifyMessage m = m).
Proof.
  unfold ReadsOverloaded, ReadsNotFound, ReadsUnauthorized, ReadsForbidden,
    ReadsRateLimited, classifyMessage.
  rewrite <- !includes_Occurs.
  destruct (includes m "503"), (includes m "overloaded"),
    (includes m "Service Unavailable"), (includes m "404"), (includes m "not found"),
    (includes m "401"), (includes m "API key"), (includes m "403"),
    (includes m "429"), (includes m "rate limit"); cbn [orb];
    repeat split; intros; try reflexivity; exfalso;
    repeat match goal with
           | H : ~ _ |- _ => apply H; clear H; auto
           | H : _ \/ _ |- _ => destruct H
           end; try discriminate; tauto.
Qed.

(** C6, as stated, fails on the empty message: it matches no category and
    yet is not passed through. *)
Lemma errorMessage_empty_counterexample :
  ~ ReadsOverloaded "" /\ ~ ReadsNotFound "" /\ ~ ReadsUnauthorized ""
  /\ ~ ReadsForbidden "" /\ ~ ReadsRateLimited ""
  /\ errorMessage (newError "") <> "".
Proof.
  unfold ReadsOverloaded, ReadsNotFound, ReadsUnauthorized, ReadsForbidden,
    ReadsRateLimited.
  rewrite <- !includes_Occurs.
  repeat split; try (intros H; vm_compute in H; intuition discriminate).
Qed.

(** C6, amended.  The error text sent to the caller is a function of the raw
    failure message alone.  A non-empty message is checked in fixed order:
    "503", "overloaded" or "Service Unavailable" gives the Overloaded text;
    else "404" or "not found" the NotFound text; else "401" or "API key" the
    Unauthorized text; else "403" the Forbidden text; else "429" or
    "rate limit" the RateLimited text; otherwise the message itself is passed
    through.  A failure whose message is absent or empty gets the generic text
    "Error communicating with Gemini API". *)
Theorem errorMessage_precedence (err : JsError) :
  (forall err', message err' = message err -> errorMessage err' = errorMessage err)
  /\ (message err = None \/ message err = Some "" -> errorMessage err = msgDefault)
  /\ (forall m, message err = Some m -> m <> "" ->
        (ReadsOverloaded m -> errorMessage err = msgOverloaded)
        /\ (~ ReadsOverloaded m -> ReadsNotFound m -> errorMessage err = msgNotFound)
        /\ (~ ReadsOverloaded m -> ~ ReadsNotFound m -> ReadsUnauthorized m ->
            errorMessage err = msgUnauthorized)
        /\ (~ ReadsOverloaded m -> ~ ReadsNotFound m -> ~ ReadsUnauthorized m ->
            ReadsForbidden m -> errorMessage err = msgForbidden)
        /\ (~ ReadsOverloaded m -> ~ ReadsNotFound m -> ~ ReadsUnauthorized m ->
            ~ ReadsForbidden m -> ReadsRateLimited m -> errorMessage err = msgRateLimited)
        /\ (~ ReadsOverloaded m -> ~ ReadsNotFound m -> ~ ReadsUnauthorized m ->
            ~ ReadsForbidden m -> ~ ReadsRateLimited m -> errorMessage err = m)).
Proof.
  split; [|split].
  - intros err' H. unfold errorMessage. now rewrite H.
  - unfold errorMessage. intros [H|H]; rewrite H; reflexivity.
  - intros m Hm Hne. unfold errorMessage. rewrite Hm.
    destruct m as [|c m]; [contradiction|]. cbn [truthyOpt truthy].
    apply classifyMessage_cases.
Qed.

Lemma errorMessage_precedence_witness :
  errorMessage (newError "[404 Not Found] models/gemini-pro is not found") = msgNotFound
  /\ errorMessage (newError "fetch failed") = "fetch failed".
Proof.
  split.
  - apply (proj1 (proj2 (proj2 (proj2 (errorMessage_precedence
             (newError "[404 Not Found] models/gemini-pro is not found"))) _ eq_refl
             ltac:(discriminate)))).
    + unfold ReadsOverloaded. rewrite <- !includes_Occurs. vm_compute.
      intuition discriminate.
    + left. apply includes_Occurs. reflexivity.
  - apply (proj2 (proj2 (proj2 (proj2 (proj2 (proj2 (proj2 (errorMessage_precedence
             (newError "fetch failed"))) _ eq_refl ltac:(discriminate)))))));
      unfold ReadsOverloaded, ReadsNotFound, ReadsUnauthorized, ReadsForbidden,
        ReadsRateLimited; rewrite <- !includes_Occurs; vm_compute; intuition discriminate.
Defined.

(* ------------------------------------------------------------------ *)
(** ** The handler's preconditions and its history bound *)

Lemma trimEnd_keeps_head (c : ascii) (s : string) :
  isWhiteSpace c = false -> truthy (trimEnd (String c s)) = true.
Proof.
  intros Hc. cbn [trimEnd]. destruct (trimEnd s); [rewrite Hc|]; reflexivity.
Qed.

(** [trim] leaves nothing exactly when every code unit is white space. *)
Lemma trim_blank (m : string) : truthy (trim m) = false <-> Blank (Some m).
Proof.
  unfold trim, Blank. induction m as [|c m IH].
  - simpl. split; [intros _ c [] | reflexivity].
  - cbn [trimStart list_ascii_of_string]. destruct (isWhiteSpace c) eqn:Ec.
    + rewrite IH. split.
      * intros H d [<-|Hd]; [exact Ec | now apply H].
      * intros H d Hd. apply H. now right.
    + rewrite trimEnd_keeps_head by exact Ec. split; [discriminate|].
      intros H. specialize (H c (or_introl eq_refl)). congruence.
Qed.

Lemma blank_check (m : string) :
  negb (truthy m) || negb (truthy (trim m)) = true <-> Blank (Some m).
Proof.
  rewrite <- trim_blank. destruct m as [|c m]; [simpl; tauto|].
  cbn [truthy negb orb]. now rewrite negb_true_iff.
Qed.

(** C7, as stated, fails: a request arriving without credential is answered
    400, not 500, when its message is blank too. *)
Lemma missing_key_counterexample :
  ~ (forall upstream key req st,
       key = None \/ key = Some "" ->
       status (fst (chatHandler upstream key req st)) = 500%Z).
Proof.
  intros H.
  specialize (H (alwaysReplies "ok") None
                {| req_message := Some "   "; req_history := None |} emptyState
                (or_introl eq_refl)).
  vm_compute in H. discriminate.
Qed.

(** C7, amended.  A request whose message is absent or blank is answered
    400 "message is required", whether or not a credential is configured.  A
    request whose message is present and not blank, arriving while the
    credential is absent or empty, is answered 500 "Gemini API key not
    configured".  In both cases the state is untouched: nothing is added to the
    trace, so no upstream call is made, and [cachedModelName] is unchanged. *)
Theorem chatHandler_preconditions
  (upstream : list Event -> Call -> Completion GenResult)
  (key : option string) (req : Request) (st : State) :
  (Blank (req_message req) ->
   chatHandler upstream key req st
   = ({| status := 400; body := ErrorBody "message is required" |}, st))
  /\ (~ Blank (req_message req) ->
      key = None \/ key = Some "" ->
      chatHandler upstream key req st
      = ({| status := 500; body := ErrorBody "Gemini API key not configured" |}, st)).
Proof.
  unfold chatHandler. destruct (req_message req) as [m|]; split.
  - intros Hb. apply blank_check in Hb. now rewrite Hb.
  - intros Hnb Hkey.
    destruct (negb (truthy m) || negb (truthy (trim m))) eqn:E.
    + apply blank_check in E. contradiction.
    + destruct Hkey as [-> | ->]; reflexivity.
  - reflexivity.
  - intros Hnb. exfalso. apply Hnb. exact I.
Qed.

Lemma chatHandler_preconditions_witness :
  chatHandler (alwaysReplies "ok") (Some "key")
              {| req_message := Some "  "; req_history := None |} (cachedState "gemini-2.5-pro")
  = ({| status := 400; body := ErrorBody "message is required" |}, cachedState "gemini-2.5-pro")
  /\ chatHandler (alwaysReplies "ok") None
                 {| req_message := Some "hi"; req_history := None |} (cachedState "gemini-2.5-pro")
     = ({| status := 500; body := ErrorBody "Gemini API key not configured" |},
        cachedState "gemini-2.5-pro").
Proof.
  split.
  - apply (proj1 (chatHandler_preconditions _ _ _ _)).
    simpl. intros c [<-|[<-|[]]]; reflexivity.
  - apply (proj2 (chatHandler_preconditions _ _ _ _)).
    + simpl. intros H. specialize (H _ (or_introl eq_refl)). vm_compute in H. discriminate.
    + left. reflexivity.
Defined.

Lemma sliceLast_split {A} (n : nat) (l : list A) :
  l = firstn (List.length l - n) l ++ sliceLast n l.
Proof. unfold sliceLast. now rewrite firstn_skipn. Qed.

Lemma sliceLast_length {A} (n : nat) (l : list A) :
  List.length (sliceLast n l) = Nat.min (List.length l) n.
Proof. unfold sliceLast. rewrite length_skipn. lia. Qed.

Lemma sliceLast_short {A} (n : nat) (l : list A) :
  List.length l <= n -> sliceLast n l = l.
Proof.
  intros H. unfold sliceLast. replace (List.length l - n) with 0 by lia. reflexivity.
Qed.

(** C3.  For a request whose history has at most 30 entries, as the caller
    sends it, the handler uses the history in full: what is left after its own
    [slice(-30)] is the whole history, no leading entry is discarded, and the
    request is answered by invoking the resolved model on the whole history
    and on the conversation built from the whole history. *)
Theorem history_used_in_full (history : list Message)
  (Hpre : List.length history <= 30) :
  trimmedHistoryOf (Some history) = history
  /\ firstn (List.length history - 30) history = []
  /\ (forall upstream key message st,
        ~ Blank (Some message) -> truthyOpt key = true ->
        chatHandler upstream key
                    {| req_message := Some message; req_history := Some history |} st
        = respond ((m <- resolveModel upstream ;;
                    invoke upstream m history
                           (buildHistoryForGemini (Some history) (trim message))
                           (trim message)) st)).
Proof.
  assert (Hfull : trimmedHistoryOf (Some history) = history)
    by (cbn [trimmedHistoryOf]; now apply sliceLast_short).
  split; [exact Hfull|]. split.
  - replace (List.length history - 30) with 0 by lia. reflexivity.
  - intros upstream key message st Hnb Hkey. unfold chatHandler, respond.
    cbn [req_message req_history]. rewrite Hfull.
    destruct (negb (truthy message) || negb (truthy (trim message))) eqn:E.
    + apply blank_check in E. contradiction.
    + rewrite Hkey. reflexivity.
Qed.

Lemma history_used_in_full_witness :
  trimmedHistoryOf (Some (longHistory 30)) = longHistory 30
  /\ firstn (List.length (longHistory 30) - 30) (longHistory 30) = [].
Proof.
  assert (Hpre : List.length (longHistory 30) <= 30) by (vm_compute; lia).
  destruct (history_used_in_full (longHistory 30) Hpre) as (H1 & H2 & _).
  split; [exact H1 | exact H2].
Defined.

(** Beyond the caller's bound: of a history of 31 entries the handler drops
    the first; the chat session is seeded with the last 30 only. *)
Lemma history_retrimmed_beyond_30 :
  trimmedHistoryOf (Some (longHistory 31)) = longHistory 30
  /\ trimmedHistoryOf (Some (longHistory 31)) <> longHistory 31
  /\ callsOf (trace (snd (chatHandler (alwaysReplies "ok") (Some "key")
                            {| req_message := Some "hi";
                               req_history := Some (longHistory 31) |} emptyState)))
     = [ GenerateContent "gemini-2.5-flash" "test";
         StartChat "gemini-2.5-flash" (map turnOf (longHistory 30));
         SendMessage "gemini-2.5-flash" (map turnOf (longHistory 30)) "hi" ].
Proof.
  split; [reflexivity|]. split; [|vm_compute; reflexivity].
  intros H. apply (f_equal (@List.length Message)) in H. vm_compute in H. discriminate.
Qed.

(** X20.  The handler itself keeps only the last 30 entries of the history
    it is given: a history of at most 30 entries is used in full, and of a
    longer one the leading entries are discarded, so that a request is
    answered exactly as the same request carrying only its last 30 entries; a
    history that is not an array counts as empty. *)
Theorem trimmedHistory_last_30 (history : list Message) :
  history = firstn (List.length history - 30) history ++ trimmedHistoryOf (Some history)
  /\ List.length (trimmedHistoryOf (Some history)) = Nat.min (List.length history) 30
  /\ (List.length history <= 30 -> trimmedHistoryOf (Some history) = history)
  /\ trimmedHistoryOf None = []
  /\ (forall upstream key message st,
        chatHandler upstream key
                    {| req_message := message; req_history := Some history |} st
        = chatHandler upstream key
                      {| req_message := message;
                         req_history := Some (trimmedHistoryOf (Some history)) |} st).
Proof.
  cbn [trimmedHistoryOf].
  split; [apply sliceLast_split|]. split; [apply sliceLast_length|].
  split; [apply sliceLast_short|]. split; [reflexivity|].
  intros upstream key message st. unfold chatHandler. cbn [req_message req_history].
  cbn [trimmedHistoryOf].
  rewrite (sliceLast_short 30 (sliceLast 30 history))
    by (rewrite sliceLast_length; lia).
  reflexivity.
Qed.

Lemma trimmedHistory_last_30_witness :
  trimmedHistoryOf (Some [userMsg "hi"; botMsg "hello"]) = [userMsg "hi"; botMsg "hello"].
Proof.
  apply (proj1 (proj2 (proj2 (trimmedHistory_last_30 [userMsg "hi"; botMsg "hello"])))).
  simpl. lia.
Defined.

(* ------------------------------------------------------------------ *)
(** ** Model resolution *)

Section Resolution.

Variable upstream : list Event -> Call -> Completion GenResult.

Lemma probe_retry_cache (name : string) (st : State) :
  cachedModelName (snd (retryWithBackoff (probe upstream name) 2 500 st))
  = cachedModelName st.
Proof.
  apply (retryWithBackoff_trace _ _ 2 500 st (probe_MakesCall upstream name)). lia.
Qed.

Lemma probe_retry_calls (name : string) (st : State) :
  exists n : nat,
    1 <= n <= 2
    /\ callsOf (trace (snd (retryWithBackoff (probe upstream name) 2 500 st)))
       = callsOf (trace st) ++ repeat (GenerateContent name "test") n.
Proof.
  destruct (retryWithBackoff_trace _ _ 2 500 st (probe_MakesCall upstream name))
    as (_ & n & Hn & Hmax & Hcalls & _); [lia|].
  exists n. split; [lia | exact Hcalls].
Qed.

(** The walk always completes; it either stops at a candidate, which is then
    the model, its name and the cache, or leaves name and cache as found. *)
Lemma walkCandidates_result (names : list string) :
  forall (r : Resolution) (st : State),
  exists r' st',
    walkCandidates upstream names r st = (Returned r', st')
    /\ ((exists n, In n names /\ model r' = Some n /\ modelName r' = Some n
                   /\ cachedModelName st' = Some n)
        \/ (modelName r' = modelName r /\ cachedModelName st' = cachedModelName st)).
Proof.
  induction names as [|name rest IH]; intros r st; cbn [walkCandidates].
  - exists r, st. split; [reflexivity|]. right. split; reflexivity.
  - pose proof (probe_retry_cache name st) as Hcache.
    destruct (retryWithBackoff (probe upstream name) 2 500 st) as [[v|e] st1].
    + eexists _, _. split; [reflexivity|]. left. exists name.
      repeat split. now left.
    + destruct (IH {| model := Some name; modelName := modelName r;
                      lastError := Some e |} st1)
        as (r' & st' & Hw & [(n & Hin & Hm & Hn & Hc) | [Hn Hc]]).
      * exists r', st'. split; [exact Hw|]. left. exists n.
        repeat split; try assumption. now right.
      * exists r', st'. split; [exact Hw|]. right. simpl in Hn, Hcache.
        split; [exact Hn | congruence].
Qed.

Lemma noName_unresolved (r : Resolution) : noName r -> unresolved r = true.
Proof.
  unfold noName, unresolved. destruct (model r), (modelName r); intros H;
    try reflexivity. now rewrite H.
Qed.

Lemma modelNames_truthy : Forall (fun n => truthy n = true) modelNames.
Proof. repeat constructor. Qed.

(** A walk that started without a usable name resolves only to a candidate
    it has just cached. *)
Lemma walkAndCheck_success (r0 : Resolution) (st : State) (m : string) (st1 : State) :
  noName r0 ->
  walkAndCheck upstream r0 st = (Returned m, st1) ->
  cachedModelName st1 = Some m /\ truthy m = true /\ In m modelNames.
Proof.
  intros Hno. unfold walkAndCheck, bind.
  destruct (walkCandidates_result modelNames r0 st)
    as (r' & st' & -> & [(n & Hin & Hm & Hn & Hc) | [Hn Hc]]).
  - pose proof modelNames_truthy as Ht. rewrite Forall_forall in Ht.
    unfold unresolved. rewrite Hm, Hn, (Ht n Hin). cbn [negb ret].
    intros H. injection H as <- <-. auto.
  - rewrite noName_unresolved by (unfold noName in *; now rewrite Hn).
    discriminate.
Qed.

(** How [resolveModel] splits on the cache. *)
Lemma resolveModel_cases (st : State) :
  (truthyOpt (cachedModelName st) = false ->
   resolveModel upstream st
   = walkAndCheck upstream
       {| model := None; modelName := cachedModelName st; lastError := None |} st)
  /\ (forall name, cachedModelName st = Some name -> truthy name = true ->
      match retryWithBackoff (probe upstream name) 2 500 st with
      | (Returned _, st') => resolveModel upstream st = (Returned name, st')
      | (Threw _, st') =>
          resolveModel upstream st
          = walkAndCheck upstream
              {| model := None; modelName := None; lastError := None |}
              (setCache None st')
      end).
Proof.
  unfold resolveModel, walkAndCheck, bind, tryCached. split.
  - destruct (cachedModelName st) as [name|]; cbn [truthyOpt].
    + intros ->. reflexivity.
    + reflexivity.
  - intros name -> Hname. rewrite Hname.
    destruct (retryWithBackoff (probe upstream name) 2 500 st) as [[v|e] st'].
    + unfold unresolved. cbn [model modelName]. rewrite Hname.
      cbn [negb ret model modelName]. rewrite Hname. reflexivity.
    + reflexivity.
Qed.

Lemma resolveModel_success (st : State) (m : string) (st1 : State) :
  resolveModel upstream st = (Returned m, st1) ->
  cachedModelName st1 = Some m /\ truthy m = true.
Proof.
  destruct (resolveModel_cases st) as [Hempty Hcached].
  destruct (cachedModelName st) as [name|] eqn:Ec.
  - destruct (truthy name) eqn:Et.
    + specialize (Hcached name eq_refl Et).
      pose proof (probe_retry_cache name st) as Hcache.
      destruct (retryWithBackoff (probe upstream name) 2 500 st) as [[v|e] st'].
      * rewrite Hcached. intros H. injection H as <- <-.
        simpl in Hcache. split; [congruence | exact Et].
      * rewrite Hcached. intros H.
        apply walkAndCheck_success in H; [tauto | exact I].
    + rewrite Hempty by exact Et. intros H.
      apply walkAndCheck_success in H; [tauto | exact Et].
  - rewrite Hempty by reflexivity. intros H.
    apply walkAndCheck_success in H; [tauto | exact I].
Qed.

End Resolution.

(** C9.  A successful resolution leaves its model in [cachedModelName].  From
    any later state holding that model, a resolution whose cached probe
    succeeds returns the same model and keeps it cached, and its only upstream
    calls are the one or two executions of that model's probe: the candidates
    are not walked.  The candidates are walked only when the cache holds no
    usable name, or after the cached probe has failed, and then from a cleared
    cache. *)
Theorem resolveModel_idempotent
  (upstream : list Event -> Call -> Completion GenResult) (st : State) :
  (forall m st1,
     resolveModel upstream st = (Returned m, st1) ->
     cachedModelName st1 = Some m
     /\ forall st2 v st3,
          cachedModelName st2 = Some m ->
          retryWithBackoff (probe upstream m) 2 500 st2 = (Returned v, st3) ->
          resolveModel upstream st2 = (Returned m, st3)
          /\ cachedModelName st3 = Some m
          /\ exists n : nat,
              1 <= n <= 2
              /\ callsOf (trace st3)
                 = callsOf (trace st2) ++ repeat (GenerateContent m "test") n)
  /\ (truthyOpt (cachedModelName st) = false ->
      resolveModel upstream st
      = walkAndCheck upstream
          {| model := None; modelName := cachedModelName st; lastError := None |} st)
  /\ (forall name e st',
        cachedModelName st = Some name -> truthy name = true ->
        retryWithBackoff (probe upstream name) 2 500 st = (Threw e, st') ->
        resolveModel upstream st
        = walkAndCheck upstream
            {| model := None; modelName := None; lastError := None |}
            (setCache None st')).
Proof.
  split; [|split].
  - intros m st1 Hres.
    destruct (resolveModel_success upstream st m st1 Hres) as [Hc Ht].
    split; [exact Hc|].
    intros st2 v st3 Hc2 Hprobe.
    pose proof (proj2 (resolveModel_cases upstream st2) m Hc2 Ht) as Hfast.
    pose proof (probe_retry_cache upstream m st2) as Hcache.
    pose proof (probe_retry_calls upstream m st2) as Hcalls.
    rewrite Hprobe in Hfast, Hcache, Hcalls. simpl in Hcache, Hcalls.
    split; [exact Hfast|]. split; [congruence | exact Hcalls].
  - apply resolveModel_cases.
  - intros name e st' Hc Ht Hprobe.
    pose proof (proj2 (resolveModel_cases upstream st) name Hc Ht) as H.
    now rewrite Hprobe in H.
Qed.

Lemma resolveModel_idempotent_witness :
  resolveModel (failsFirst 1 "404 not found" "ok")
               {| cachedModelName := Some "gemini-2.5-pro";
                  trace := [Called (GenerateContent "gemini-2.5-flash" "test");
                            Called (GenerateContent "gemini-2.5-pro" "test")] |}
  = (Returned "gemini-2.5-pro",
     {| cachedModelName := Some "gemini-2.5-pro";
        trace := [Called (GenerateContent "gemini-2.5-flash" "test");
                  Called (GenerateContent "gemini-2.5-pro" "test");
                  Called (GenerateContent "gemini-2.5-pro" "test")] |}).
Proof.
  refine (proj1 (proj2 (proj1 (resolveModel_idempotent
                                 (failsFirst 1 "404 not found" "ok") emptyState)
                              "gemini-2.5-pro" _ _) _ (Some tt) _ _ _));
    reflexivity.
Defined.

(* ------------------------------------------------------------------ *)
(** ** The conversation invoker and the handler's failure path *)

Section Invocation.

Variable upstream : list Event -> Call -> Completion GenResult.

(** Past its two preconditions the handler resolves, invokes and answers. *)
Lemma chatHandler_run (key : option string) (req : Request) (st : State)
      (message : string) :
  req_message req = Some message ->
  ~ Blank (Some message) ->
  truthyOpt key = true ->
  chatHandler upstream key req st
  = respond ((m <- resolveModel upstream ;;
              invoke upstream m (trimmedHistoryOf (req_history req))
                     (buildHistoryForGemini (Some (trimmedHistoryOf (req_history req)))
                                            (trim message))
                     (trim message)) st).
Proof.
  intros Hm Hnb Hkey. unfold chatHandler, respond. rewrite Hm.
  destruct (negb (truthy message) || negb (truthy (trim message))) eqn:E.
  - apply blank_check in E. contradiction.
  - rewrite Hkey. reflexivity.
Qed.

(** [replyOf] touches neither trace nor cache. *)
Lemma replyOf_state (result : option GenResult) (st : State) :
  snd (replyOf result st) = st.
Proof.
  unfold replyOf. destruct result as [r|]; [|reflexivity].
  destruct (response r) as [resp|e]; [|reflexivity].
  destruct (response_text resp); reflexivity.
Qed.

(** The calls and sleeps of the degraded path: the one completion call,
    executed one to three times, with the delays 1000 and 2000 between. *)
Lemma fallbackPath_trace (m : string) (trimmedHistory : list Message)
      (message : string) (st : State) :
  cachedModelName (snd (fallbackPath upstream m trimmedHistory message st))
  = cachedModelName st
  /\ exists n : nat,
      1 <= n <= 3
      /\ callsOf (trace (snd (fallbackPath upstream m trimmedHistory message st)))
         = callsOf (trace st)
           ++ repeat (GenerateContent m (fallbackPrompt trimmedHistory message)) n
      /\ sleepsOf (trace (snd (fallbackPath upstream m trimmedHistory message st)))
         = sleepsOf (trace st) ++ map (fun j => (1000 * 2 ^ Z.of_nat j)%Z) (seq 0 (n - 1)).
Proof.
  unfold fallbackPath, bind.
  destruct (retryWithBackoff_trace
              (call upstream (GenerateContent m (fallbackPrompt trimmedHistory message)))
              _ 3 1000 st (call_MakesCall upstream _))
    as (Hc & n & Hn & Hmax & Hcalls & Hsleeps); [lia|].
  destruct (retryWithBackoff _ 3 1000 st) as [[result|e] st1]; simpl in *.
  - rewrite replyOf_state. split; [exact Hc|]. exists n.
    split; [lia|]. split; assumption.
  - split; [exact Hc|]. exists n. split; [lia|]. split; assumption.
Qed.

Lemma transcriptLine_cases (x : Message) :
  (sender x = "user" -> transcriptLine x = ("User: " ++ text x)%string)
  /\ (sender x <> "user" -> transcriptLine x = ("Assistant: " ++ text x)%string).
Proof.
  unfold transcriptLine. split; intros H.
  - rewrite H. reflexivity.
  - apply String.eqb_neq in H. rewrite H. reflexivity.
Qed.

End Invocation.

(** The states in which a retried single call is executed. *)
Lemma stateBefore_call upstream (c : Call) (baseDelay : Z) (st : State) (j : nat) :
  stateBefore (call upstream c) baseDelay st j = afterRetries c baseDelay st j.
Proof.
  induction j as [|k IH]; cbn [stateBefore].
  - unfold afterRetries. cbn [retriedTrace]. rewrite app_nil_r. now destruct st.
  - rewrite IH. unfold call, record, afterRetries. cbn [snd trace cachedModelName retriedTrace].
    now rewrite <- !app_assoc.
Qed.

(** How a retried single call ends, told by the answers of the service: the
    executions before the last were answered with overload errors, and the last
    answer is returned, or rethrown when it is no overload or attempts are
    used up. *)
Lemma retry_call_outcome upstream (c : Call) (maxRetries baseDelay : Z) (st : State) :
  (1 <= maxRetries)%Z ->
  exists i : nat,
    (Z.of_nat i < maxRetries)%Z
    /\ (forall j, j < i ->
          exists e, upstream (trace (afterRetries c baseDelay st j)) c = Threw e
                    /\ isOverloaded e = true)
    /\ match upstream (trace (afterRetries c baseDelay st i)) c with
       | Returned r =>
           retryWithBackoff (call upstream c) maxRetries baseDelay st
           = (Returned (Some r), record (Called c) (afterRetries c baseDelay st i))
       | Threw e =>
           (isOverloaded e = false \/ Z.of_nat i = (maxRetries - 1)%Z)
           /\ retryWithBackoff (call upstream c) maxRetries baseDelay st
              = (Threw e, record (Called c) (afterRetries c baseDelay st i))
       end.
Proof.
  intros Hmax. unfold retryWithBackoff.
  destruct (Z.to_nat maxRetries) as [|r] eqn:Er; [lia|].
  destruct (retryLoop_runs (call upstream c) maxRetries baseDelay st r 0)
    as (i & Hi & Hfail & Hres); [lia | intros j Hj; lia |].
  exists i. split; [exact Hi|]. split.
  - intros j Hj. destruct (Hfail j Hj) as (e & He & Ho).
    rewrite stateBefore_call in He. exists e. split; [exact He | exact Ho].
  - change (Z.of_nat 0) with 0%Z in Hres.
    change (stateBefore (call upstream c) baseDelay st 0) with st in Hres.
    rewrite stateBefore_call in Hres. unfold call at 1 in Hres.
    destruct (upstream (trace (afterRetries c baseDelay st i)) c) as [r0|e]; exact Hres.
Qed.

(** C8.  When the primary chat path throws, [invoke] is the degraded path run
    once from the state the primary path left: a single completion call on
    the flattened prompt, under the retry policy (3, 1000).  The outcome
    follows the answers of the service to that call: while it is answered with
    an overload error and executions remain, 1000 and then 2000 ms are slept
    and it is executed again; the first other answer ends the run, a result
    giving the reply and an error being thrown by [invoke] as it is, as is the
    third overload error; nothing is called after that, and the handler
    answers such an error with its 500 response.  With a history, the prompt is
    the header line, the history rendered one line per entry as "User: ..." or
    "Assistant: ..." and joined by newlines, a blank line, the new message as
    a last "User: ..." line and the "Assistant:" cue, so it holds every line
    and the new message; without history it is the new message. *)
Theorem invoke_fallback
  (upstream : list Event -> Call -> Completion GenResult)
  (m : string) (trimmedHistory : list Message) (conversationHistory : list Content)
  (message : string) (st : State) (chatError : JsError) (st1 : State)
  (Hprimary : chatPath upstream m conversationHistory message st = (Threw chatError, st1)) :
  let c := GenerateContent m (fallbackPrompt trimmedHistory message) in
  invoke upstream m trimmedHistory conversationHistory message st
  = fallbackPath upstream m trimmedHistory message st1
  /\ (exists n : nat,
        1 <= n <= 3
        /\ callsOf (trace (snd (invoke upstream m trimmedHistory conversationHistory
                                       message st)))
           = callsOf (trace st1)
             ++ repeat (GenerateContent m (fallbackPrompt trimmedHistory message)) n
        /\ sleepsOf (trace (snd (invoke upstream m trimmedHistory conversationHistory
                                        message st)))
           = sleepsOf (trace st1)
             ++ map (fun j => (1000 * 2 ^ Z.of_nat j)%Z) (seq 0 (n - 1)))
  /\ (trimmedHistory <> [] ->
      fallbackPrompt trimmedHistory message
      = ("Previous conversation:" ++ LF
         ++ join LF (map transcriptLine trimmedHistory)
         ++ LF ++ LF ++ "User: " ++ message ++ LF ++ "Assistant:")%string)
  /\ (forall x, In x trimmedHistory ->
        (sender x = "user" -> transcriptLine x = ("User: " ++ text x)%string)
        /\ (sender x <> "user" -> transcriptLine x = ("Assistant: " ++ text x)%string))
  /\ fallbackPrompt [] message = message
  /\ (forall e2 st2,
        fallbackPath upstream m trimmedHistory message st1 = (Threw e2, st2) ->
        invoke upstream m trimmedHistory conversationHistory message st = (Threw e2, st2))
  /\ (forall key req st0 raw e2 st2,
        req_message req = Some raw -> ~ Blank (Some raw) -> truthyOpt key = true ->
        message = trim raw ->
        trimmedHistory = trimmedHistoryOf (req_history req) ->
        conversationHistory = buildHistoryForGemini (Some trimmedHistory) message ->
        resolveModel upstream st0 = (Returned m, st) ->
        fallbackPath upstream m trimmedHistory message st1 = (Threw e2, st2) ->
        chatHandler upstream key req st0
        = ({| status := 500; body := ErrorBody (errorMessage e2) |}, st2))
  /\ (exists i : nat,
        i < 3
        /\ (forall j, j < i ->
              exists e, upstream (trace (afterRetries c 1000 st1 j)) c = Threw e
                        /\ isOverloaded e = true)
        /\ match upstream (trace (afterRetries c 1000 st1 i)) c with
           | Returned r =>
               invoke upstream m trimmedHistory conversationHistory message st
               = replyOf (Some r) (record (Called c) (afterRetries c 1000 st1 i))
           | Threw e =>
               (isOverloaded e = false \/ i = 2)
               /\ invoke upstream m trimmedHistory conversationHistory message st
                  = (Threw e, record (Called c) (afterRetries c 1000 st1 i))
           end)
  /\ (forall e,
        upstream (trace st1) c = Threw e -> isOverloaded e = false ->
        invoke upstream m trimmedHistory conversationHistory message st
        = (Threw e, record (Called c) st1))
  /\ (forall e0 e1 e2,
        upstream (trace st1) c = Threw e0 -> isOverloaded e0 = true ->
        upstream (trace st1 ++ [Called c; Slept 1000]) c = Threw e1 ->
        isOverloaded e1 = true ->
        upstream (trace st1 ++ [Called c; Slept 1000; Called c; Slept 2000]) c = Threw e2 ->
        invoke upstream m trimmedHistory conversationHistory message st
        = (Threw e2,
           {| cachedModelName := cachedModelName st1;
              trace := trace st1 ++ [Called c; Slept 1000; Called c; Slept 2000; Called c] |}))
  /\ (forall key req st0 raw e,
        req_message req = Some raw -> ~ Blank (Some raw) -> truthyOpt key = true ->
        message = trim raw ->
        trimmedHistory = trimmedHistoryOf (req_history req) ->
        conversationHistory = buildHistoryForGemini (Some trimmedHistory) message ->
        resolveModel upstream st0 = (Returned m, st) ->
        upstream (trace st1) c = Threw e -> isOverloaded e = false ->
        chatHandler upstream key req st0
        = ({| status := 500; body := ErrorBody (errorMessage e) |},
           record (Called c) st1))
  /\ Occurs message (fallbackPrompt trimmedHistory message)
  /\ (forall x, In x trimmedHistory ->
        Occurs (transcriptLine x) (fallbackPrompt trimmedHistory message)).
Proof.
  intros c.
  assert (Hinv : invoke upstream m trimmedHistory conversationHistory message st
                 = fallbackPath upstream m trimmedHistory message st1).
  { unfold invoke, tryCatch. now rewrite Hprimary. }
  assert (Hone : forall e,
             upstream (trace st1) c = Threw e -> isOverloaded e = false ->
             fallbackPath upstream m trimmedHistory message st1
             = (Threw e, record (Called c) st1)).
  { intros e He Ho. unfold fallbackPath, bind, retryWithBackoff.
    change (Z.to_nat 3) with 3. cbn [retryLoop]. unfold call at 1. fold c.
    rewrite He, Ho. reflexivity. }
  split; [exact Hinv|].
  split; [|split; [|split; [|split; [|split; [|split; [|split; [|split; [|split;
    [|split; [|split]]]]]]]]]].
  - rewrite Hinv.
    destruct (fallbackPath_trace upstream m trimmedHistory message st1)
      as (_ & n & Hn & Hcalls & Hsleeps).
    exists n. split; [exact Hn|]. split; assumption.
  - intros Hne. unfold fallbackPrompt.
    destruct trimmedHistory; [contradiction | reflexivity].
  - intros x _. apply transcriptLine_cases.
  - reflexivity.
  - intros e2 st2 Hfb. now rewrite Hinv.
  - intros key req st0 raw e2 st2 Hraw Hnb Hkey -> -> -> Hres Hfb.
    rewrite (chatHandler_run upstream key req st0 raw Hraw Hnb Hkey).
    unfold bind. rewrite Hres, Hinv, Hfb. reflexivity.
  - destruct (retry_call_outcome upstream c 3 1000 st1) as (i & Hi & Hfail & Hres); [lia|].
    exists i. split; [lia|]. split; [exact Hfail|].
    rewrite Hinv. unfold fallbackPath, bind. fold c.
    destruct (upstream (trace (afterRetries c 1000 st1 i)) c) as [r|e].
    + rewrite Hres. reflexivity.
    + destruct Hres as [Hwhy ->]. split; [|reflexivity].
      destruct Hwhy as [Ho|Hlast]; [left; exact Ho | right; lia].
  - intros e He Ho. rewrite Hinv. now apply Hone.
  - intros e0 e1 e2 H0 Ho0 H1 Ho1 H2. rewrite Hinv.
    assert (T0 : trace (afterRetries c 1000 st1 0) = trace st1)
      by (cbn [afterRetries trace retriedTrace]; apply app_nil_r).
    assert (T1 : trace (afterRetries c 1000 st1 1) = trace st1 ++ [Called c; Slept 1000])
      by reflexivity.
    assert (T2 : trace (afterRetries c 1000 st1 2)
                 = trace st1 ++ [Called c; Slept 1000; Called c; Slept 2000])
      by (cbn [afterRetries trace retriedTrace app]; reflexivity).
    destruct (retry_call_outcome upstream c 3 1000 st1) as (i & Hi & Hfail & Hres); [lia|].
    unfold fallbackPath, bind. fold c.
    destruct i as [|[|[|i]]]; [| | |lia].
    + rewrite T0, H0 in Hres. destruct Hres as [[Hno|Hlast] _]; [congruence | lia].
    + rewrite T1, H1 in Hres. destruct Hres as [[Hno|Hlast] _]; [congruence | lia].
    + rewrite T2, H2 in Hres. destruct Hres as [_ ->].
      unfold record, afterRetries. cbn [trace cachedModelName retriedTrace app].
      rewrite <- app_assoc. reflexivity.
  - intros key req st0 raw e Hraw Hnb Hkey -> -> -> Hres He Ho.
    rewrite (chatHandler_run upstream key req st0 raw Hraw Hnb Hkey).
    unfold bind. rewrite Hres, Hinv. fold c in Hone. rewrite (Hone e He Ho). reflexivity.
  - unfold fallbackPrompt. destruct trimmedHistory as [|m0 th]; [apply Occurs_self|].
    change (0 <? List.length (m0 :: th))%nat with true. cbv iota.
    do 6 apply Occurs_app_l. apply Occurs_app_r, Occurs_self.
  - intros x Hin. unfold fallbackPrompt. destruct trimmedHistory as [|m0 th]; [contradiction|].
    change (0 <? List.length (m0 :: th))%nat with true. cbv iota.
    do 2 apply Occurs_app_l. apply Occurs_app_r.
    apply join_Occurs. now apply in_map.
Qed.

Lemma invoke_fallback_witness :
  invoke (noChat "fine") "gemini-2.5-flash" [botMsg "welcome"; userMsg "hi"]
         (buildHistoryForGemini (Some [botMsg "welcome"; userMsg "hi"]) "how are you?")
         "how are you?" emptyState
  = fallbackPath (noChat "fine") "gemini-2.5-flash" [botMsg "welcome"; userMsg "hi"]
                 "how are you?"
                 {| cachedModelName := None;
                    trace := [Called (StartChat "gemini-2.5-flash"
                                        [turnOf (botMsg "welcome"); turnOf (userMsg "hi")])] |}.
Proof.
  refine (proj1 (invoke_fallback (noChat "fine") "gemini-2.5-flash"
                                 [botMsg "welcome"; userMsg "hi"] _ "how are you?"
                                 emptyState _ _ _)).
  reflexivity.
Defined.

(** The degraded path failing: the plain completion and then the fallback
    completion are refused once each, nothing is retried, and the error of the
    fallback is what the caller is told. *)
Example chatHandler_fallback_fails :
  chatHandler (probesOnly "400 Bad Request") (Some "key")
              {| req_message := Some "hi"; req_history := Some [] |} emptyState
  = ({| status := 500; body := ErrorBody "400 Bad Request" |},
     {| cachedModelName := Some "gemini-2.5-flash";
        trace := [ Called (GenerateContent "gemini-2.5-flash" "test");
                   Called (GenerateContent "gemini-2.5-flash" "hi");
                   Called (GenerateContent "gemini-2.5-flash" "hi") ] |}).
Proof. vm_compute. reflexivity. Qed.

(** The degraded path at work: the session cannot be started, the flattened
    prompt is sent once and its answer is the reply. *)
Example chatHandler_degraded :
  chatHandler (noChat "fine") (Some "key")
              {| req_message := Some " how are you? ";
                 req_history := Some [botMsg "welcome"; userMsg "hi"] |}
              (cachedState "gemini-2.5-flash")
  = ({| status := 200; body := ReplyBody "fine" |},
     {| cachedModelName := Some "gemini-2.5-flash";
        trace := [ Called (GenerateContent "gemini-2.5-flash" "test");
                   Called (StartChat "gemini-2.5-flash"
                             [turnOf (botMsg "welcome"); turnOf (userMsg "hi")]);
                   Called (GenerateContent "gemini-2.5-flash"
                             ("Previous conversation:" ++ LF ++ "Assistant: welcome" ++ LF
                              ++ "User: hi" ++ LF ++ LF ++ "User: how are you?" ++ LF
                              ++ "Assistant:")%string) ] |}).
Proof. vm_compute. reflexivity. Qed.

(* ------------------------------------------------------------------ *)
(** ** Exhausted resolution *)

(** The composite message always carries the word "overloaded", which the
    classification checks first. *)
Lemma noModelMessage_reads_overloaded (lastError : option JsError) :
  errorMessage (newError (noModelMessage lastError)) = msgOverloaded.
Proof.
  unfold errorMessage, newError, noModelMessage. cbn [message truthyOpt].
  set (tail := orElse _ _).
  change (truthy _) with true. cbv iota. unfold classifyMessage.
  assert (H : includes
                ("No available Gemini model found. All models are either unavailable or overloaded. Last error: "
                 ++ tail ++ ". Please try again in a few moments.")%string "overloaded" = true).
  { apply includes_Occurs.
    exists "No available Gemini model found. All models are either unavailable or ",
           (". Last error: " ++ tail ++ ". Please try again in a few moments.")%string.
    reflexivity. }
  rewrite H, orb_true_r. reflexivity.
Qed.

(** [resolveModel] throws nothing but the composite message. *)
Lemma resolveModel_throws upstream (st : State) (e : JsError) (st' : State) :
  resolveModel upstream st = (Threw e, st') ->
  exists lastError, e = newError (noModelMessage lastError).
Proof.
  unfold resolveModel, bind.
  destruct (tryCached upstream st) as [[r0|e0] st0] eqn:E0.
  - destruct (unresolved r0).
    + destruct (walkCandidates_result upstream modelNames r0 st0) as (r & st1 & -> & _).
      destruct (unresolved r); [|destruct (model r)];
        unfold throw, ret; intros H; inversion H; eauto.
    + unfold ret. destruct (unresolved r0); [|destruct (model r0)];
        unfold throw, ret; intros H; inversion H; eauto.
  - exfalso. unfold tryCached in E0.
    destruct (cachedModelName st) as [name|]; [|discriminate].
    destruct (truthy name); [|discriminate].
    destruct (retryWithBackoff (probe upstream name) 2 500 st) as [[v|e1] s]; discriminate.
Qed.

(** Whatever made the candidates fail, an exhausted resolution is answered
    with the Overloaded text. *)
Lemma chatHandler_unresolved upstream (key : option string) (req : Request)
      (st : State) (message : string) (e : JsError) (st' : State) :
  req_message req = Some message ->
  ~ Blank (Some message) ->
  truthyOpt key = true ->
  resolveModel upstream st = (Threw e, st') ->
  chatHandler upstream key req st
  = ({| status := 500; body := ErrorBody msgOverloaded |}, st').
Proof.
  intros Hm Hnb Hkey Hres.
  rewrite (chatHandler_run upstream key req st message Hm Hnb Hkey).
  unfold bind. rewrite Hres. unfold respond.
  destruct (resolveModel_throws upstream st e st' Hres) as (le & ->).
  now rewrite noModelMessage_reads_overloaded.
Qed.

(** C2.  The code at the failing input: every candidate's probe fails with a
    404 error, which is no overload and by itself is classified NotFound; each
    candidate is probed once, the composite message naming that error is
    thrown, and the response carries the Overloaded text, not the NotFound
    one. *)
Theorem chatHandler_all_candidates_not_found :
  let lastMessage := "[404 Not Found] models/gemini-2.0-flash is not found for API version v1beta" in
  isOverloaded (newError lastMessage) = false
  /\ errorMessage (newError lastMessage) = msgNotFound
  /\ resolveModel (alwaysFails lastMessage) emptyState
     = (Threw (newError (noModelMessage (Some (newError lastMessage)))),
        {| cachedModelName := None;
           trace := map (fun name => Called (GenerateContent name "test")) modelNames |})
  /\ chatHandler (alwaysFails lastMessage) (Some "key")
                 {| req_message := Some "hi"; req_history := Some [] |} emptyState
     = ({| status := 500; body := ErrorBody msgOverloaded |},
        {| cachedModelName := None;
           trace := map (fun name => Called (GenerateContent name "test")) modelNames |}).
Proof.
  cbv zeta. split; [reflexivity|]. split; [reflexivity|].
  split; vm_compute; reflexivity.
Qed.

(** The scenarios of the handler on a healthy and on a recovering service. *)
Example chatHandler_first_candidate :
  chatHandler (alwaysReplies "hello") (Some "key")
              {| req_message := Some "hi"; req_history := Some [] |} emptyState
  = ({| status := 200; body := ReplyBody "hello" |},
     {| cachedModelName := Some "gemini-2.5-flash";
        trace := [ Called (GenerateContent "gemini-2.5-flash" "test");
                   Called (GenerateContent "gemini-2.5-flash" "hi") ] |}).
Proof. vm_compute. reflexivity. Qed.

Example chatHandler_cached_overloaded :
  chatHandler (failsFirst 2 "503 overloaded" "hello") (Some "key")
              {| req_message := Some "hi"; req_history := Some [] |}
              (cachedState "gemini-2.5-pro")
  = ({| status := 200; body := ReplyBody "hello" |},
     {| cachedModelName := Some "gemini-2.5-flash";
        trace := [ Called (GenerateContent "gemini-2.5-pro" "test"); Slept 500;
                   Called (GenerateContent "gemini-2.5-pro" "test");
                   Called (GenerateContent "gemini-2.5-flash" "test");
                   Called (GenerateContent "gemini-2.5-flash" "hi") ] |}).
Proof. vm_compute. reflexivity. Qed.

(* ------------------------------------------------------------------ *)
(** ** Retried errors and the Overloaded answer *)

Lemma truthy_nonempty (s : string) : truthy s = true <-> s <> "".
Proof. destruct s; simpl; split; congruence. Qed.

(** X1.  The caller is told "overloaded" exactly for the errors
    [retryWithBackoff] treats as overload: the classification gives the
    Overloaded text if and only if the retry wrapper's own test holds. *)
Theorem errorMessage_overloaded_iff (e : JsError) :
  errorMessage e = msgOverloaded <-> isOverloaded e = true.
Proof.
  unfold errorMessage, isOverloaded. destruct (message e) as [m|]; cbn [truthyOpt].
  - destruct m as [|c m]; [split; discriminate|]. cbn [truthy]. unfold classifyMessage.
    destruct (includes (String c m) "503" || includes (String c m) "overloaded"
              || includes (String c m) "Service Unavailable") eqn:Eo.
    + split; reflexivity.
    + split; [|discriminate]. intros H.
      destruct (includes (String c m) "404" || includes (String c m) "not found");
        [discriminate|].
      destruct (includes (String c m) "401" || includes (String c m) "API key");
        [discriminate|].
      destruct (includes (String c m) "403"); [discriminate|].
      destruct (includes (String c m) "429" || includes (String c m) "rate limit");
        [discriminate|].
      rewrite H in Eo. vm_compute in Eo. discriminate.
  - split; discriminate.
Qed.

(** The error text is never empty. *)
Lemma errorMessage_nonempty (e : JsError) : errorMessage e <> "".
Proof.
  unfold errorMessage. destruct (message e) as [m|]; cbn [truthyOpt]; [|discriminate].
  destruct m as [|c m]; [discriminate|]. cbn [truthy]. unfold classifyMessage.
  repeat match goal with
         | |- (if ?b then _ else _) <> _ => destruct b; [discriminate|]
         end.
  discriminate.
Qed.

Lemma replyOf_nonempty (result : option GenResult) (st st' : State) (t : string) :
  replyOf result st = (Returned t, st') -> t <> "".
Proof.
  unfold replyOf. destruct result as [r|]; [|discriminate].
  destruct (response r) as [resp|e]; [|discriminate].
  destruct (response_text resp) as [t0|e]; [|discriminate].
  unfold ret. intros H. injection H as <- _.
  destruct t0; simpl; discriminate.
Qed.

Lemma bind_replyOf_nonempty (m : Async (option GenResult)) (st st' : State) (t : string) :
  (result <- m ;; replyOf result) st = (Returned t, st') -> t <> "".
Proof.
  unfold bind. destruct (m st) as [[r|e] s]; [|discriminate].
  apply replyOf_nonempty.
Qed.

Lemma invoke_nonempty upstream (m : string) (trimmedHistory : list Message)
      (conversationHistory : list Content) (message : string)
      (st st' : State) (t : string) :
  invoke upstream m trimmedHistory conversationHistory message st = (Returned t, st') ->
  t <> "".
Proof.
  unfold invoke, tryCatch.
  destruct (chatPath upstream m conversationHistory message st) as [[t0|e] s] eqn:E.
  - intros H. injection H as <- _. revert E. unfold chatPath.
    destruct (0 <? List.length (sliceInit conversationHistory))%nat.
    + unfold bind at 1. destruct (call upstream _ st) as [[r|e] s0]; [|discriminate].
      apply bind_replyOf_nonempty.
    + apply bind_replyOf_nonempty.
  - unfold fallbackPath. apply bind_replyOf_nonempty.
Qed.

Lemma errorMessage_overloaded_iff_witness :
  errorMessage (newError "got 503 from upstream") = msgOverloaded.
Proof.
  apply (proj2 (errorMessage_overloaded_iff (newError "got 503 from upstream"))).
  reflexivity.
Defined.

(** X2.  No response the handler sends carries an empty text.  The reply of
    a 200 response is never empty: where the service gave an empty text the
    placeholder stands.  The error text of a 400 or 500 response is never
    empty either. *)
Theorem chatHandler_texts_nonempty
  (upstream : list Event -> Call -> Completion GenResult)
  (key : option string) (req : Request) (st : State) :
  match body (fst (chatHandler upstream key req st)) with
  | ReplyBody t => t <> "" /\ status (fst (chatHandler upstream key req st)) = 200%Z
  | ErrorBody t => t <> "" /\ status (fst (chatHandler upstream key req st)) <> 200%Z
  end.
Proof.
  unfold chatHandler.
  destruct (req_message req) as [message|]; [|split; discriminate].
  destruct (negb (truthy message) || negb (truthy (trim message)));
    [split; discriminate|].
  destruct (negb (truthyOpt key)); [split; discriminate|].
  set (run := bind _ _).
  destruct (run st) as [[t|e] st'] eqn:E; cbn [fst status body].
  - split; [|reflexivity].
    subst run. unfold bind in E.
    destruct (resolveModel upstream st) as [[m|e] s]; [|discriminate].
    eapply invoke_nonempty. exact E.
  - split; [apply errorMessage_nonempty | discriminate].
Qed.

(** An empty text from the service is answered with the placeholder. *)
Example chatHandler_placeholder :
  fst (chatHandler (alwaysReplies "") (Some "key")
                   {| req_message := Some "hi"; req_history := None |} emptyState)
  = {| status := 200; body := ReplyBody "I couldn't generate a reply." |}.
Proof. vm_compute. reflexivity. Qed.

(* ------------------------------------------------------------------ *)
(** ** What a retried call costs *)

Lemma sumZ_app (l1 l2 : list Z) : sumZ (l1 ++ l2) = (sumZ l1 + sumZ l2)%Z.
Proof. induction l1 as [|x l1 IH]; simpl; [reflexivity | rewrite IH; lia]. Qed.

(** The doubling delays add up to one short of the next power of two. *)
Lemma sumZ_backoff (baseDelay : Z) (k : nat) :
  sumZ (map (fun j => (baseDelay * 2 ^ Z.of_nat j)%Z) (seq 0 k))
  = (baseDelay * (2 ^ Z.of_nat k - 1))%Z.
Proof.
  induction k as [|k IH]; [simpl; lia|].
  rewrite seq_S, map_app, sumZ_app, IH. cbn [map sumZ Nat.add].
  rewrite Nat2Z.inj_succ, Z.pow_succ_r by lia. lia.
Qed.

(** X3.  A retried single call that was executed [n] times has slept
    [baseDelay * (2^(n-1) - 1)] milliseconds in all: nothing for one
    execution, and with a non-negative base delay never more than
    [baseDelay * (2^(maxRetries-1) - 1)]. *)
Theorem retryWithBackoff_total_sleep
  {T : Type} (fn : Async T) (c : Call) (maxRetries baseDelay : Z) (st : State)
  (Hfn : MakesCall fn c) (Hmax : (1 <= maxRetries)%Z) (Hbase : (0 <= baseDelay)%Z) :
  exists n : nat,
    1 <= n /\ (Z.of_nat n <= maxRetries)%Z
    /\ nCalls (snd (retryWithBackoff fn maxRetries baseDelay st)) = nCalls st + n
    /\ slept (snd (retryWithBackoff fn maxRetries baseDelay st))
       = (slept st + baseDelay * (2 ^ Z.of_nat (n - 1) - 1))%Z
    /\ (slept (snd (retryWithBackoff fn maxRetries baseDelay st))
        <= slept st + baseDelay * (2 ^ (maxRetries - 1) - 1))%Z.
Proof.
  destruct (retryWithBackoff_trace fn c maxRetries baseDelay st Hfn Hmax)
    as (_ & n & Hn & Hle & Hcalls & Hsleeps).
  exists n. split; [exact Hn|]. split; [exact Hle|].
  assert (Hs : slept (snd (retryWithBackoff fn maxRetries baseDelay st))
               = (slept st + baseDelay * (2 ^ Z.of_nat (n - 1) - 1))%Z).
  { unfold slept. rewrite Hsleeps, sumZ_app, sumZ_backoff. reflexivity. }
  split; [|split; [exact Hs|]].
  - unfold nCalls. rewrite Hcalls, length_app, repeat_length. reflexivity.
  - rewrite Hs.
    assert (2 ^ Z.of_nat (n - 1) <= 2 ^ (maxRetries - 1))%Z
      by (apply Z.pow_le_mono_r; lia).
    nia.
Qed.

Lemma retryWithBackoff_total_sleep_witness :
  exists n : nat,
    1 <= n /\ (Z.of_nat n <= 3)%Z
    /\ nCalls (snd (retryWithBackoff (call (alwaysFails "503") (GenerateContent "m" "p"))
                                     3 1000 emptyState)) = nCalls emptyState + n
    /\ slept (snd (retryWithBackoff (call (alwaysFails "503") (GenerateContent "m" "p"))
                                    3 1000 emptyState))
       = (slept emptyState + 1000 * (2 ^ Z.of_nat (n - 1) - 1))%Z
    /\ (slept (snd (retryWithBackoff (call (alwaysFails "503") (GenerateContent "m" "p"))
                                     3 1000 emptyState))
        <= slept emptyState + 1000 * (2 ^ (3 - 1) - 1))%Z.
Proof.
  apply (retryWithBackoff_total_sleep
           (call (alwaysFails "503") (GenerateContent "m" "p"))
           (GenerateContent "m" "p") 3 1000 emptyState).
  - apply call_MakesCall.
  - lia.
  - lia.
Defined.

(* ------------------------------------------------------------------ *)
(** ** White space around the message *)

Lemma trimEnd_idempotent (s : string) : trimEnd (trimEnd s) = trimEnd s.
Proof.
  induction s as [|c s IH]; [reflexivity|]. cbn [trimEnd].
  destruct (trimEnd s) as [|d t] eqn:E.
  - destruct (isWhiteSpace c) eqn:Ec; [reflexivity|].
    cbn [trimEnd]. now rewrite Ec.
  - cbn [trimEnd] in *. rewrite IH. reflexivity.
Qed.

(** [trimStart] yields nothing or a string that starts with a visible code
    unit, and [trimEnd] keeps that start. *)
Lemma trimStart_trimEnd (s : string) :
  trimStart (trimEnd (trimStart s)) = trimEnd (trimStart s).
Proof.
  induction s as [|c s IH]; [reflexivity|]. cbn [trimStart].
  destruct (isWhiteSpace c) eqn:Ec; [exact IH|].
  cbn [trimEnd]. destruct (trimEnd s); [rewrite Ec|]; cbn [trimStart]; now rewrite Ec.
Qed.

Lemma trim_idempotent (s : string) : trim (trim s) = trim s.
Proof. unfold trim. now rewrite trimStart_trimEnd, trimEnd_idempotent. Qed.

(** X5.  White space around the message never matters: a request is
    answered exactly as the same request with its message trimmed (a message
    of white space only is answered 400 either way). *)
Theorem chatHandler_trims_message
  (upstream : list Event -> Call -> Completion GenResult)
  (key : option string) (message : string) (history : option (list Message))
  (st : State) :
  chatHandler upstream key {| req_message := Some message; req_history := history |} st
  = chatHandler upstream key
                {| req_message := Some (trim message); req_history := history |} st.
Proof.
  unfold chatHandler. cbn [req_message req_history]. rewrite trim_idempotent.
  destruct (truthy (trim message)) eqn:Et.
  - assert (Hm : truthy message = true) by (destruct message; [discriminate | reflexivity]).
    rewrite Hm. reflexivity.
  - rewrite !orb_true_r. reflexivity.
Qed.

(* ------------------------------------------------------------------ *)
(** ** Priority of the candidates *)

Section StatelessService.

Variable upstream : list Event -> Call -> Completion GenResult.
Hypothesis upstream_stateless : Stateless upstream.

Lemma probe_stateless (name : string) (st : State) :
  if probeOk upstream name
  then probe upstream name st = (Returned tt, record (Called (GenerateContent name "test")) st)
  else exists e, probe upstream name st
                 = (Threw e, record (Called (GenerateContent name "test")) st).
Proof.
  unfold probeOk, probe, bind, call.
  rewrite (upstream_stateless (trace st) [] (GenerateContent name "test")).
  destruct (upstream [] (GenerateContent name "test")) as [r|e].
  - destruct (response r) as [resp|e]; [reflexivity | exists e; reflexivity].
  - exists e. reflexivity.
Qed.

(** Against a stateless service the retried probe succeeds exactly when the
    probe does. *)
Lemma probe_retry_stateless (name : string) (st : State) :
  if probeOk upstream name
  then exists st', retryWithBackoff (probe upstream name) 2 500 st = (Returned (Some tt), st')
  else exists e st', retryWithBackoff (probe upstream name) 2 500 st = (Threw e, st').
Proof.
  unfold retryWithBackoff. change (Z.to_nat 2) with 2. cbn [retryLoop].
  pose proof (probe_stateless name st) as H1.
  destruct (probeOk upstream name) eqn:Eok.
  - rewrite H1. eexists. reflexivity.
  - destruct H1 as (e & ->).
    destruct (isOverloaded e && (0 <? 2 - 1)%Z); [|eexists _, _; reflexivity].
    pose proof (probe_stateless name
                  (snd (sleep (500 * 2 ^ 0) (record (Called (GenerateContent name "test")) st))))
      as H2.
    rewrite Eok in H2. destruct H2 as (e2 & ->).
    replace (isOverloaded e2 && (0 + 1 <? 2 - 1)%Z) with false
      by (now rewrite andb_false_r).
    eexists _, _. reflexivity.
Qed.

Lemma walkCandidates_stateless (names : list string) :
  forall (r : Resolution) (st : State),
  exists r' st',
    walkCandidates upstream names r st = (Returned r', st')
    /\ match find (probeOk upstream) names with
       | Some n => model r' = Some n /\ modelName r' = Some n
                   /\ cachedModelName st' = Some n
       | None => modelName r' = modelName r /\ cachedModelName st' = cachedModelName st
       end.
Proof.
  induction names as [|name rest IH]; intros r st; cbn [walkCandidates find].
  - exists r, st. repeat split.
  - pose proof (probe_retry_stateless name st) as Hp.
    pose proof (probe_retry_cache upstream name st) as Hc.
    destruct (probeOk upstream name).
    + destruct Hp as (st' & ->). eexists _, _. split; [reflexivity|]. repeat split.
    + destruct Hp as (e & st' & Hp). rewrite Hp in Hc |- *. simpl in Hc.
      destruct (IH {| model := Some name; modelName := modelName r; lastError := Some e |} st')
        as (r' & st'' & Hw & Hres).
      exists r', st''. split; [exact Hw|].
      destruct (find (probeOk upstream) rest); [exact Hres|].
      simpl in Hres. destruct Hres as [Hn Hcache]. split; [exact Hn | congruence].
Qed.

End StatelessService.

(** X6.  Priority is list order: against a service whose answers do not
    depend on the past, a resolution starting from an empty cache returns and
    caches the first candidate of the ranked list whose probe succeeds, and
    throws, leaving the cache as it was, when there is none. *)
Theorem resolveModel_first_available
  (upstream : list Event -> Call -> Completion GenResult) (st : State)
  (Hstateless : Stateless upstream)
  (Hempty : truthyOpt (cachedModelName st) = false) :
  match find (probeOk upstream) modelNames with
  | Some n =>
      exists st', resolveModel upstream st = (Returned n, st')
                  /\ cachedModelName st' = Some n
  | None =>
      exists e st', resolveModel upstream st = (Threw e, st')
                    /\ cachedModelName st' = cachedModelName st
  end.
Proof.
  rewrite (proj1 (resolveModel_cases upstream st) Hempty).
  unfold walkAndCheck, bind.
  destruct (walkCandidates_stateless upstream Hstateless modelNames
              {| model := None; modelName := cachedModelName st; lastError := None |} st)
    as (r' & st' & -> & Hres).
  destruct (find (probeOk upstream) modelNames) as [n|] eqn:Ef.
  - destruct Hres as (Hm & Hn & Hc).
    apply find_some in Ef. destruct Ef as [Hin _].
    pose proof modelNames_truthy as Ht. rewrite Forall_forall in Ht.
    unfold unresolved. rewrite Hm, Hn, (Ht n Hin). cbn [negb].
    exists st'. split; [reflexivity | exact Hc].
  - destruct Hres as [Hn Hc]. cbn [modelName] in Hn.
    assert (Hun : unresolved r' = true).
    { apply noName_unresolved. unfold noName. rewrite Hn.
      destruct (cachedModelName st) as [x|]; [|exact I].
      cbn [truthyOpt] in Hempty. exact Hempty. }
    rewrite Hun. eexists _, st'. split; [reflexivity | exact Hc].
Qed.

Lemma resolveModel_first_available_witness :
  exists st',
    resolveModel (availableOnly ["gemini-2.0-flash"; "gemini-flash-latest"]) emptyState
    = (Returned "gemini-flash-latest", st')
    /\ cachedModelName st' = Some "gemini-flash-latest".
Proof.
  refine (resolveModel_first_available
            (availableOnly ["gemini-2.0-flash"; "gemini-flash-latest"]) emptyState _ _).
  - intros tr tr' c. reflexivity.
  - reflexivity.
Defined.

(* ------------------------------------------------------------------ *)
(** ** Calls and sleeps of a request *)



Lemma costs_ret {T} (v : T) : Costs (ret v) 0 0.
Proof. intros st. simpl. lia. Qed.

Lemma costs_throw {T} (e : JsError) : Costs (@throw T e) 0 0.
Proof. intros st. simpl. lia. Qed.

Lemma costs_weaken {T} (m : Async T) (a a' : nat) (b b' : Z) :
  Costs m a b -> a <= a' -> (b <= b')%Z -> Costs m a' b'.
Proof. intros H Ha Hb st. specialize (H st). lia. Qed.

Lemma costs_bind {A B} (m : Async A) (k : A -> Async B) (a a' : nat) (b b' : Z) :
  Costs m a b -> (forall v, Costs (k v) a' b') -> (0 <= b')%Z ->
  Costs (bind m k) (a + a') (b + b').
Proof.
  intros Hm Hk Hb st. unfold bind. specialize (Hm st).
  destruct (m st) as [[v|e] st1]; simpl in *.
  - specialize (Hk v st1). lia.
  - lia.
Qed.




(** A retried single call: at most [maxRetries] calls, and the sum of the
    doubling delays. *)
Lemma costs_retry {T} (fn : Async T) (c : Call) (maxRetries baseDelay : Z) :
  MakesCall fn c -> (1 <= maxRetries)%Z -> (0 <= baseDelay)%Z ->
  Costs (retryWithBackoff fn maxRetries baseDelay)
        (Z.to_nat maxRetries) (baseDelay * (2 ^ (maxRetries - 1) - 1)).
Proof.
  intros Hfn Hmax Hbase st.
  destruct (retryWithBackoff_trace fn c maxRetries baseDelay st Hfn Hmax)
    as (_ & n & Hn & Hle & Hcalls & Hsleeps).
  unfold nCalls, slept. rewrite Hcalls, Hsleeps, length_app, repeat_length.
  rewrite sumZ_app, sumZ_backoff.
  assert (1 <= 2 ^ Z.of_nat (n - 1) <= 2 ^ (maxRetries - 1))%Z.
  { split; [|apply Z.pow_le_mono_r; lia].
    assert (0 < 2 ^ Z.of_nat (n - 1))%Z by (apply Z.pow_pos_nonneg; lia). lia. }
  split; [lia | nia].
Qed.

Lemma costs_probe_retry upstream (name : string) :
  Costs (retryWithBackoff (probe upstream name) 2 500) 2 500.
Proof.
  apply (costs_retry _ _ 2 500 (probe_MakesCall upstream name)); lia.
Qed.

Lemma costs_tryCached upstream : Costs (tryCached upstream) 2 500.
Proof.
  intros st. unfold tryCached.
  destruct (cachedModelName st) as [name|]; [|simpl; lia].
  destruct (truthy name); [|simpl; lia].
  pose proof (costs_probe_retry upstream name st) as H.
  destruct (retryWithBackoff (probe upstream name) 2 500 st) as [[v|e] st1];
    simpl in *; exact H.
Qed.

Lemma costs_walkCandidates upstream (names : list string) (r : Resolution) :
  Costs (walkCandidates upstream names r)
        (2 * List.length names) (500 * Z.of_nat (List.length names)).
Proof.
  revert r. induction names as [|name rest IH]; intros r st; cbn [walkCandidates].
  - simpl. lia.
  - pose proof (costs_probe_retry upstream name st) as H.
    destruct (retryWithBackoff (probe upstream name) 2 500 st) as [[v|e] st1];
      cbn [snd] in *.
    + change (nCalls (setCache (Some name) st1)) with (nCalls st1).
      change (slept (setCache (Some name) st1)) with (slept st1).
      cbn [List.length]. lia.
    + specialize (IH {| model := Some name; modelName := modelName r;
                        lastError := Some e |} st1).
      cbn [List.length]. lia.
Qed.

(** A resolution: two executions of the cached probe and two per candidate. *)
Lemma costs_resolveModel upstream : Costs (resolveModel upstream) 14 3500.
Proof.
  unfold resolveModel.
  apply (costs_bind _ _ 2 12 500 3000 (costs_tryCached upstream)); [|lia].
  intros r0.
  apply (costs_bind _ _ 12 0 3000 0); [| |lia].
  - destruct (unresolved r0).
    + apply (costs_walkCandidates upstream modelNames r0).
    + eapply costs_weaken; [apply costs_ret | lia | lia].
  - intros r. destruct (unresolved r); [apply costs_throw|].
    destruct (model r); [apply costs_ret | apply costs_throw].
Qed.

(** What [currentText] can throw is no overload. *)
Lemma currentText_throws (conversationHistory : list Content) (e : JsError) :
  currentText conversationHistory = Threw e -> isOverloaded e = false.
Proof.
  unfold currentText. destruct (rev conversationHistory) as [|c l].
  - intros H. injection H as <-. reflexivity.
  - destruct (parts c); intros H; [injection H as <-; reflexivity | discriminate].
Qed.




(** X7.  A model resolution makes at most 14 upstream calls (two executions
    of the cached model's probe and two per candidate) and sleeps at most 3500
    milliseconds, whatever the service answers. *)
Theorem resolveModel_cost
  (upstream : list Event -> Call -> Completion GenResult) (st : State) :
  nCalls (snd (resolveModel upstream st)) <= nCalls st + 2 + 2 * List.length modelNames
  /\ (slept (snd (resolveModel upstream st))
      <= slept st + 500 + 500 * Z.of_nat (List.length modelNames))%Z.
Proof.
  pose proof (costs_resolveModel upstream st) as H. simpl. lia.
Qed.

(** *** Calls that reach the service *)

















(** The bounds are reached: the cached model and five candidates are
    overloaded, the sixth recovers on its second probe, the session starts and
    every send and every completion is overloaded. *)
Example chatHandler_cost_reached :
  let st' := snd (chatHandler (overloadedExcept [13; 14]) (Some "key")
                              {| req_message := Some "hi";
                                 req_history := Some [userMsg "a"] |}
                              (cachedState "gemini-2.5-pro")) in
  nServiceCalls st' = 20 /\ nCalls st' = 21 /\ slept st' = 9500%Z.
Proof. vm_compute. repeat split. Qed.

(* ------------------------------------------------------------------ *)
(** ** The cache across a request *)

Lemma keepsCache_bind {A B} (m : Async A) (k : A -> Async B) :
  KeepsCache m -> (forall v, KeepsCache (k v)) -> KeepsCache (bind m k).
Proof.
  intros Hm Hk st. unfold bind. specialize (Hm st).
  destruct (m st) as [[v|e] st1]; simpl in *; [rewrite Hk|]; exact Hm.
Qed.

Lemma keepsCache_tryCatch {A} (m : Async A) (h : JsError -> Async A) :
  KeepsCache m -> (forall e, KeepsCache (h e)) -> KeepsCache (tryCatch m h).
Proof.
  intros Hm Hh st. unfold tryCatch. specialize (Hm st).
  destruct (m st) as [[v|e] st1]; simpl in *; [|rewrite Hh]; exact Hm.
Qed.

Lemma keepsCache_replyOf (result : option GenResult) : KeepsCache (replyOf result).
Proof. intros st. now rewrite replyOf_state. Qed.

Lemma keepsCache_retry {T} (fn : Async T) (c : Call) (maxRetries baseDelay : Z) :
  MakesCall fn c -> (1 <= maxRetries)%Z ->
  KeepsCache (retryWithBackoff fn maxRetries baseDelay).
Proof.
  intros Hfn Hmax st.
  apply (retryWithBackoff_trace fn c maxRetries baseDelay st Hfn Hmax).
Qed.

Lemma keepsCache_invoke upstream (m : string) (trimmedHistory : list Message)
      (conversationHistory : list Content) (message : string) :
  KeepsCache (invoke upstream m trimmedHistory conversationHistory message).
Proof.
  unfold invoke. apply keepsCache_tryCatch.
  - unfold chatPath.
    destruct (0 <? List.length (sliceInit conversationHistory))%nat.
    + apply keepsCache_bind; [intros st; reflexivity|]. intros _.
      apply keepsCache_bind; [|intros; apply keepsCache_replyOf].
      destruct (currentText conversationHistory) as [t|e] eqn:Et.
      * apply (keepsCache_retry _ _ 3 1000 (call_MakesCall upstream _)). lia.
      * intros st. unfold retryWithBackoff. change (Z.to_nat 3) with 3.
        cbn [retryLoop]. rewrite (currentText_throws _ _ Et). reflexivity.
    + apply keepsCache_bind; [|intros; apply keepsCache_replyOf].
      apply (keepsCache_retry _ _ 3 1000 (call_MakesCall upstream _)). lia.
  - intros _. unfold fallbackPath.
    apply keepsCache_bind; [|intros; apply keepsCache_replyOf].
    apply (keepsCache_retry _ _ 3 1000 (call_MakesCall upstream _)). lia.
Qed.

(** Where a walk and its check leave the cache. *)
Lemma walkAndCheck_cache upstream (r0 : Resolution) (st : State) :
  cachedModelName (snd (walkAndCheck upstream r0 st)) = cachedModelName st
  \/ exists n, In n modelNames
               /\ cachedModelName (snd (walkAndCheck upstream r0 st)) = Some n.
Proof.
  unfold walkAndCheck, bind.
  destruct (walkCandidates_result upstream modelNames r0 st)
    as (r' & st' & -> & Hres).
  assert (Hst : forall (k : Async string), snd (k st') = st' ->
                cachedModelName (snd (k st')) = cachedModelName st') by (intros k ->; auto).
  assert (Hend : snd ((if unresolved r'
                       then throw (newError (noModelMessage (lastError r')))
                       else match model r' with
                            | Some m => ret m
                            | None => throw (newError (noModelMessage (lastError r')))
                            end) st') = st').
  { destruct (unresolved r'); [|destruct (model r')]; reflexivity. }
  rewrite Hend.
  destruct Hres as [(n & Hin & _ & _ & Hc) | [_ Hc]].
  - right. exists n. split; assumption.
  - left. exact Hc.
Qed.

Lemma resolveModel_cache upstream (st : State) :
  cachedModelName (snd (resolveModel upstream st)) = cachedModelName st
  \/ cachedModelName (snd (resolveModel upstream st)) = None
  \/ exists n, In n modelNames
               /\ cachedModelName (snd (resolveModel upstream st)) = Some n.
Proof.
  destruct (resolveModel_cases upstream st) as [Hempty Hcached].
  destruct (truthyOpt (cachedModelName st)) eqn:Et.
  - destruct (cachedModelName st) as [name|] eqn:Ec; [|discriminate].
    cbn [truthyOpt] in Et. specialize (Hcached name eq_refl Et).
    pose proof (probe_retry_cache upstream name st) as Hpc.
    destruct (retryWithBackoff (probe upstream name) 2 500 st) as [[v|e] st1];
      rewrite Hcached; simpl in Hpc.
    + left. simpl. congruence.
    + destruct (walkAndCheck_cache upstream
                  {| model := None; modelName := None; lastError := None |}
                  (setCache None st1)) as [H | H].
      * right; left. rewrite H. reflexivity.
      * right; right. exact H.
  - rewrite Hempty by reflexivity.
    destruct (walkAndCheck_cache upstream
                {| model := None; modelName := cachedModelName st; lastError := None |} st)
      as [H | H]; [left | right; right]; exact H.
Qed.

(** X9.  Across a request [cachedModelName] is left as it was, cleared, or
    set to one of the ranked candidates; so a cache that is empty or holds a
    candidate stays so.  After a 200 response it holds a non-empty name. *)
Theorem chatHandler_cache
  (upstream : list Event -> Call -> Completion GenResult)
  (key : option string) (req : Request) (st : State) :
  let st' := snd (chatHandler upstream key req st) in
  (cachedModelName st' = cachedModelName st
   \/ cachedModelName st' = None
   \/ exists n, In n modelNames /\ cachedModelName st' = Some n)
  /\ (CacheIsCandidate st -> CacheIsCandidate st')
  /\ (status (fst (chatHandler upstream key req st)) = 200%Z ->
      exists m, cachedModelName st' = Some m /\ m <> "").
Proof.
  cbv zeta.
  assert (H1 : cachedModelName (snd (chatHandler upstream key req st)) = cachedModelName st
               \/ cachedModelName (snd (chatHandler upstream key req st)) = None
               \/ exists n, In n modelNames
                            /\ cachedModelName (snd (chatHandler upstream key req st))
                               = Some n).
  { unfold chatHandler.
    destruct (req_message req) as [message|]; [|left; reflexivity].
    destruct (negb (truthy message) || negb (truthy (trim message))); [left; reflexivity|].
    destruct (negb (truthyOpt key)); [left; reflexivity|].
    set (th := trimmedHistoryOf (req_history req)).
    set (conv := buildHistoryForGemini (Some th) (trim message)).
    pose proof (resolveModel_cache upstream st) as Hr.
    unfold bind.
    destruct (resolveModel upstream st) as [[m|e] st1]; cbn [snd] in Hr.
    - pose proof (keepsCache_invoke upstream m th conv (trim message) st1) as Hi.
      destruct (invoke upstream m th conv (trim message) st1) as [[t|e] st2];
        cbn [snd] in *; rewrite Hi; exact Hr.
    - exact Hr. }
  split; [exact H1|]. split.
  - intros Hc. unfold CacheIsCandidate in *.
    destruct H1 as [H | [H | (n & Hin & H)]].
    + rewrite H. exact Hc.
    + left. exact H.
    + right. exists n. split; assumption.
  - unfold chatHandler.
    destruct (req_message req) as [message|]; [|discriminate].
    destruct (negb (truthy message) || negb (truthy (trim message))); [discriminate|].
    destruct (negb (truthyOpt key)); [discriminate|].
    set (th := trimmedHistoryOf (req_history req)).
    set (conv := buildHistoryForGemini (Some th) (trim message)).
    unfold bind.
    destruct (resolveModel upstream st) as [[m|e] st1] eqn:Er; [|discriminate].
    destruct (resolveModel_success upstream st m st1 Er) as [Hc Ht].
    pose proof (keepsCache_invoke upstream m th conv (trim message) st1) as Hi.
    destruct (invoke upstream m th conv (trim message) st1) as [[t|e] st2];
      [|discriminate].
    intros _. cbn [snd] in *. exists m. split; [congruence|].
    now apply truthy_nonempty.
Qed.

Lemma chatHandler_cache_witness :
  CacheIsCandidate (snd (chatHandler (failsFirst 3 "503 overloaded" "ok") (Some "key")
                                     {| req_message := Some "hi"; req_history := None |}
                                     (cachedState "gemini-2.5-pro"))).
Proof.
  apply (proj1 (proj2 (chatHandler_cache (failsFirst 3 "503 overloaded" "ok") (Some "key")
                                         {| req_message := Some "hi"; req_history := None |}
                                         (cachedState "gemini-2.5-pro")))).
  right. exists "gemini-2.5-pro". split; [reflexivity|].
  simpl. auto.
Defined.

(* ------------------------------------------------------------------ *)
(** ** What the primary path sends *)

Lemma sliceInit_built (h : list Message) (newMessage : string) :
  sliceInit (buildHistoryForGemini (Some h) newMessage)
  = map turnOf (filter knownSender h).
Proof. rewrite buildHistoryForGemini_eq. unfold sliceInit. apply removelast_last. Qed.

Lemma currentText_built (h : list Message) (newMessage : string) :
  currentText (buildHistoryForGemini (Some h) newMessage) = Returned newMessage.
Proof.
  rewrite buildHistoryForGemini_eq. unfold currentText. rewrite rev_unit. reflexivity.
Qed.

Lemma snd_bind_replyOf (m : Async (option GenResult)) (st : State) :
  snd ((result <- m ;; replyOf result) st) = snd (m st).
Proof.
  unfold bind. destruct (m st) as [[r|e] s]; [apply replyOf_state | reflexivity].
Qed.

(** X10.  On the conversation the handler builds, the primary path starts a
    chat session exactly when the history has an entry with a recognised
    sender: the session is seeded with the translation of those entries and
    the new message is what is sent into it, up to three times.  Without such
    an entry no session is started and the new message is sent as a plain
    completion, one to three times. *)
Theorem chatPath_session
  (upstream : list Event -> Call -> Completion GenResult)
  (m : string) (history : list Message) (message : string) (st : State) :
  let turns := map turnOf (filter knownSender history) in
  let st' := snd (chatPath upstream m (buildHistoryForGemini (Some history) message)
                           message st) in
  (turns = [] ->
   exists n, 1 <= n <= 3
             /\ callsOf (trace st') = callsOf (trace st) ++ repeat (GenerateContent m message) n)
  /\ (turns <> [] ->
      exists n, n <= 3
                /\ callsOf (trace st')
                   = callsOf (trace st)
                     ++ StartChat m turns :: repeat (SendMessage m turns message) n).
Proof.
  cbv zeta. unfold chatPath.
  rewrite sliceInit_built, currentText_built.
  destruct (map turnOf (filter knownSender history)) as [|t0 turns] eqn:Et.
  - split; [intros _ | intros H; contradiction].
    change (0 <? List.length (@nil Content))%nat with false. cbv iota.
    rewrite snd_bind_replyOf.
    destruct (retryWithBackoff_trace
                (call upstream (GenerateContent m message)) _ 3 1000 st
                (call_MakesCall upstream _)) as (_ & n & Hn & Hle & Hcalls & _); [lia|].
    exists n. split; [lia | exact Hcalls].
  - split; [discriminate | intros _].
    change (0 <? List.length (t0 :: turns))%nat with true. cbv iota.
    unfold bind at 1. unfold call at 1.
    destruct (upstream (trace st) (StartChat m (t0 :: turns))) as [r|e].
    + rewrite snd_bind_replyOf.
      assert (Hfn : MakesCall
                      (fun st0 : State =>
                         match @Returned string message with
                         | Returned t => call upstream (SendMessage m (t0 :: turns) t) st0
                         | Threw e => (Threw e, st0)
                         end) (SendMessage m (t0 :: turns) message))
        by (intros s; split; reflexivity).
      destruct (retryWithBackoff_trace _ _ 3 1000
                  (record (Called (StartChat m (t0 :: turns))) st) Hfn)
        as (_ & n & Hn & Hle & Hcalls & _); [lia|].
      exists n. split; [lia|]. rewrite Hcalls. cbn [record trace].
      rewrite callsOf_app, <- app_assoc. reflexivity.
    + exists 0. split; [lia|]. cbn [snd record trace repeat].
      rewrite callsOf_app. reflexivity.
Qed.

Lemma chatPath_session_witness :
  exists n, n <= 3
            /\ callsOf (trace (snd (chatPath (alwaysReplies "ok") "gemini-2.5-flash"
                                             (buildHistoryForGemini
                                                (Some [botMsg "welcome"]) "hi")
                                             "hi" emptyState)))
               = callsOf (trace emptyState)
                 ++ StartChat "gemini-2.5-flash" [turnOf (botMsg "welcome")]
                 :: repeat (SendMessage "gemini-2.5-flash" [turnOf (botMsg "welcome")] "hi") n.
Proof.
  apply (proj2 (chatPath_session (alwaysReplies "ok") "gemini-2.5-flash"
                                 [botMsg "welcome"] "hi" emptyState)).
  discriminate.
Defined.

(* ------------------------------------------------------------------ *)
(** ** What the flattened prompt holds *)

(** X11.  The flattened prompt loses nothing: it holds the new message and,
    for every entry of the history, its transcript line and so its text, also
    for an entry whose sender is neither "user" nor "bot". *)
Theorem fallbackPrompt_complete (trimmedHistory : list Message) (message : string) :
  Occurs message (fallbackPrompt trimmedHistory message)
  /\ forall x, In x trimmedHistory ->
       Occurs (transcriptLine x) (fallbackPrompt trimmedHistory message)
       /\ Occurs (text x) (fallbackPrompt trimmedHistory message).
Proof.
  unfold fallbackPrompt. destruct trimmedHistory as [|m0 th].
  - split; [apply Occurs_self | intros x []].
  - change (0 <? List.length (m0 :: th))%nat with true. cbv iota. split.
    + do 6 apply Occurs_app_l. apply Occurs_app_r, Occurs_self.
    + intros x Hin.
      assert (Hline : Occurs (transcriptLine x)
                             ("Previous conversation:" ++ LF
                              ++ join LF (map transcriptLine (m0 :: th)) ++ LF ++ LF
                              ++ "User: " ++ message ++ LF ++ "Assistant:")%string).
      { do 2 apply Occurs_app_l. apply Occurs_app_r.
        apply join_Occurs. now apply in_map. }
      split; [exact Hline|].
      destruct Hline as (a & b & Hab). rewrite Hab. unfold transcriptLine.
      exists (a ++ (if sender x =? "user" then "User" else "Assistant") ++ ": ")%string, b.
      now rewrite !string_app_assoc.
Qed.

Lemma fallbackPrompt_complete_witness :
  Occurs "be brief"
         (fallbackPrompt [userMsg "hi"; {| sender := "system"; text := "be brief" |}] "bye").
Proof.
  apply (proj2 (fallbackPrompt_complete
                  [userMsg "hi"; {| sender := "system"; text := "be brief" |}] "bye")
               {| sender := "system"; text := "be brief" |}).
  simpl. auto.
Defined.

(* ------------------------------------------------------------------ *)
(** ** The model list endpoint *)

Lemma string_length_app (a b : string) :
  String.length (a ++ b) = String.length a + String.length b.
Proof. induction a as [|c a IH]; simpl; [reflexivity | now rewrite IH]. Qed.

Lemma dropN_app (a b : string) : dropN (String.length a) (a ++ b) = b.
Proof. induction a as [|c a IH]; simpl; [now destruct b | exact IH]. Qed.

Lemma replaceFirst_unfold (s pat rep : string) :
  replaceFirst s pat rep
  = if String.prefix pat s then (rep ++ dropN (String.length pat) s)%string
    else match s with
         | EmptyString => EmptyString
         | String c s' => String c (replaceFirst s' pat rep)
         end.
Proof. destruct s; reflexivity. Qed.

Lemma replaceFirst_prefix (pat b rep : string) :
  replaceFirst (pat ++ b) pat rep = (rep ++ b)%string.
Proof.
  rewrite replaceFirst_unfold.
  assert (H : String.prefix pat (pat ++ b) = true) by (apply prefix_split; now exists b).
  now rewrite H, dropN_app.
Qed.

Lemma replaceFirst_absent (s pat rep : string) :
  includes s pat = false -> replaceFirst s pat rep = s.
Proof.
  induction s as [|c s IH]; cbn [includes]; rewrite replaceFirst_unfold;
    destruct (String.prefix pat _); try discriminate; intros H.
  - reflexivity.
  - now rewrite IH.
Qed.

Lemma dropN_prefix_length (s pat : string) :
  String.prefix pat s = true ->
  String.length (dropN (String.length pat) s) + String.length pat = String.length s.
Proof.
  intros H. apply prefix_split in H. destruct H as (b & ->).
  rewrite dropN_app, string_length_app. lia.
Qed.

Lemma replaceFirst_removes (s pat : string) :
  includes s pat = true ->
  String.length (replaceFirst s pat "") + String.length pat = String.length s.
Proof.
  induction s as [|c s IH]; cbn [includes]; rewrite replaceFirst_unfold;
    destruct (String.prefix pat _) eqn:E; try discriminate; intros H.
  - now apply dropN_prefix_length.
  - now apply dropN_prefix_length.
  - cbn [String.length]. rewrite <- (IH H). reflexivity.
Qed.

(** X12.  In the names the endpoints report, the first "models/" of a listed
    name is cut out: "models/x" becomes "x", a name without "models/" is
    kept, a missing name becomes the empty name, and in every other case
    exactly the seven code units of one "models/" are gone. *)
Theorem stripModelsPrefix_spec :
  (forall s, stripModelsPrefix {| info_name := Some ("models/" ++ s)%string |} = s)
  /\ stripModelsPrefix {| info_name := None |} = ""
  /\ (forall s, includes s "models/" = false ->
                stripModelsPrefix {| info_name := Some s |} = s)
  /\ (forall s, includes s "models/" = true ->
                String.length (stripModelsPrefix {| info_name := Some s |}) + 7
                = String.length s).
Proof.
  assert (Hor : forall s, orElse (Some s) "" = s) by (intros [|c s]; reflexivity).
  unfold stripModelsPrefix. cbn [info_name].
  split; [|split; [reflexivity|split]]; intros s.
  - rewrite Hor. apply (replaceFirst_prefix "models/" s "").
  - rewrite Hor. apply replaceFirst_absent.
  - rewrite Hor. intros H. apply (replaceFirst_removes s "models/" H).
Qed.

Lemma stripModelsPrefix_spec_witness :
  stripModelsPrefix {| info_name := Some "gemini-2.5-flash" |} = "gemini-2.5-flash".
Proof.
  apply (proj1 (proj2 (proj2 stripModelsPrefix_spec))). reflexivity.
Defined.

Example stripModelsPrefix_inner :
  stripModelsPrefix {| info_name := Some "tunedmodels/gemini-x" |} = "tunedgemini-x".
Proof. reflexivity. Qed.

Section ListModels.

Variable fetch : list string -> string -> Completion FetchResponse.

(** The URLs asked for a model list, and when the second one is. *)
Lemma fetchModelList_urls (apiKey : string) :
  (snd (fetchModelList fetch apiKey) = [modelsUrl "v1beta" apiKey]
   /\ (forall r v, fst (fetchModelList fetch apiKey) = Returned (r, v) ->
                   v = "v1beta" /\ ok r = true
                   /\ fetch [] (modelsUrl "v1beta" apiKey) = Returned r)
   /\ ~ (exists r, fetch [] (modelsUrl "v1beta" apiKey) = Returned r /\ ok r = false))
  \/ (snd (fetchModelList fetch apiKey) = [modelsUrl "v1beta" apiKey; modelsUrl "v1" apiKey]
      /\ (forall r v, fst (fetchModelList fetch apiKey) = Returned (r, v) ->
                      v = "v1"
                      /\ fetch [modelsUrl "v1beta" apiKey] (modelsUrl "v1" apiKey)
                         = Returned r)
      /\ exists r, fetch [] (modelsUrl "v1beta" apiKey) = Returned r /\ ok r = false).
Proof.
  unfold fetchModelList.
  destruct (fetch [] (modelsUrl "v1beta" apiKey)) as [r1|e1] eqn:E1.
  - destruct (ok r1) eqn:Eok; cbn [negb].
    + left. split; [reflexivity|]. split.
      * intros r v H. injection H as <- <-. auto.
      * intros (r & Hr & Hok). injection Hr as <-. congruence.
    + right.
      destruct (fetch [modelsUrl "v1beta" apiKey] (modelsUrl "v1" apiKey)) as [r2|e2].
      * split; [reflexivity|]. split; [|exists r1; auto].
        intros r v H. injection H as <- <-. auto.
      * split; [reflexivity|]. split; [|exists r1; auto].
        intros r v H. discriminate.
  - left. split; [reflexivity|]. split.
    + intros r v H. discriminate.
    + intros (r & Hr & _). discriminate.
Qed.

Lemma listModels_urls (apiKey : string) :
  truthy apiKey = true ->
  snd (listModels fetch (Some apiKey)) = snd (fetchModelList fetch apiKey).
Proof.
  intros Hkey. unfold listModels. rewrite Hkey. cbn [negb].
  destruct (fetchModelList fetch apiKey) as [[[r v]|e] urls]; [|reflexivity].
  destruct (negb (ok r));
    [destruct (fetch_text r) | destruct (fetch_json r)]; reflexivity.
Qed.

Lemma listModels_version (apiKey v : string) (t : nat) (ms : list ModelInfo)
      (ns : list string) (sg : string) :
  truthy apiKey = true ->
  list_body (fst (listModels fetch (Some apiKey))) = ListOk v t ms ns sg ->
  exists r, fst (fetchModelList fetch apiKey) = Returned (r, v).
Proof.
  intros Hkey. unfold listModels. rewrite Hkey. cbn [negb].
  destruct (fetchModelList fetch apiKey) as [[[r v0]|e] urls]; [|discriminate].
  destruct (negb (ok r));
    [destruct (fetch_text r) | destruct (fetch_json r)]; try discriminate.
  cbn [fst list_body]. intros H. injection H as <- _ _ _ _. exists r. reflexivity.
Qed.

End ListModels.

(** X13.  [/api/list-models] without a credential answers 500
    "GEMINI_API_KEY not set" and fetches nothing.  With one it asks the v1beta
    URL first and the v1 URL only after v1beta answered not ok (a rejected
    fetch is not tried again), two fetches at most; the [apiVersion] of a
    model list it reports is the version of the last URL asked. *)
Theorem listModels_fetches
  (fetch : list string -> string -> Completion FetchResponse) (key : option string) :
  (truthyOpt key = false ->
   listModels fetch key
   = ({| list_status := 500; list_body := ListError "GEMINI_API_KEY not set" |}, []))
  /\ (forall apiKey, key = Some apiKey -> truthy apiKey = true ->
      let urls := snd (listModels fetch key) in
      (urls = [modelsUrl "v1beta" apiKey]
       \/ urls = [modelsUrl "v1beta" apiKey; modelsUrl "v1" apiKey])
      /\ (urls = [modelsUrl "v1beta" apiKey; modelsUrl "v1" apiKey]
          <-> exists r, fetch [] (modelsUrl "v1beta" apiKey) = Returned r /\ ok r = false)
      /\ (forall v t ms ns sg,
            list_body (fst (listModels fetch key)) = ListOk v t ms ns sg ->
            (urls = [modelsUrl "v1beta" apiKey] /\ v = "v1beta")
            \/ (urls = [modelsUrl "v1beta" apiKey; modelsUrl "v1" apiKey] /\ v = "v1"))).
Proof.
  split.
  - unfold listModels. destruct key as [apiKey|]; [|reflexivity].
    cbn [truthyOpt]. intros ->. reflexivity.
  - intros apiKey -> Hkey. cbv zeta. rewrite (listModels_urls fetch apiKey Hkey).
    destruct (fetchModelList_urls fetch apiKey) as [(Hu & Hv & Hno) | (Hu & Hv & Hyes)];
      rewrite Hu.
    + split; [left; reflexivity|]. split.
      * split; [discriminate | intros H; contradiction].
      * intros v t ms ns sg Hb. left. split; [reflexivity|].
        destruct (listModels_version fetch apiKey v t ms ns sg Hkey Hb) as (r & Hr).
        apply (Hv r v Hr).
    + split; [right; reflexivity|]. split.
      * split; [intros _; exact Hyes | reflexivity].
      * intros v t ms ns sg Hb. right. split; [reflexivity|].
        destruct (listModels_version fetch apiKey v t ms ns sg Hkey Hb) as (r & Hr).
        apply (Hv r v Hr).
Qed.

Lemma listModels_fetches_witness :
  snd (listModels (servesOnV1 ["models/gemini-2.5-flash"]) (Some "k"))
  = [modelsUrl "v1beta" "k"; modelsUrl "v1" "k"].
Proof.
  apply (proj2 (proj1 (proj2 (proj2 (listModels_fetches
                                       (servesOnV1 ["models/gemini-2.5-flash"]) (Some "k"))
                                    "k" eq_refl eq_refl)))).
  exists (notOk "Not Found"). split; reflexivity.
Defined.

(** X14.  Every 200 answer of [/api/list-models] is consistent:
    [totalModels] counts both the models and the names reported, names and
    models correspond entry by entry, and the suggestion quotes at most the
    first three names, or says that none was found exactly when the list is
    empty.  Every other answer is a 500. *)
Theorem listModels_body
  (fetch : list string -> string -> Completion FetchResponse) (key : option string) :
  (forall v t ms ns sg,
     list_body (fst (listModels fetch key)) = ListOk v t ms ns sg ->
     list_status (fst (listModels fetch key)) = 200%Z
     /\ t = List.length ms /\ t = List.length ns
     /\ ns = map stripModelsPrefix ms
     /\ (t = 0 -> sg = "No models found. Check your API key.")
     /\ (0 < t -> sg = ("Try using one of these models: " ++ join ", " (firstn 3 ns))%string
                  /\ List.length (firstn 3 ns) <= 3))
  /\ ((forall v t ms ns sg, list_body (fst (listModels fetch key)) <> ListOk v t ms ns sg) ->
      list_status (fst (listModels fetch key)) = 500%Z).
Proof.
  unfold listModels. destruct key as [apiKey|].
  2:{ split; [intros; discriminate | reflexivity]. }
  destruct (negb (truthy apiKey)).
  { split; [intros; discriminate | reflexivity]. }
  destruct (fetchModelList fetch apiKey) as [[[r v0]|e] urls].
  2:{ split; [intros; discriminate | reflexivity]. }
  destruct (negb (ok r)).
  { destruct (fetch_text r); split; try (intros; discriminate); reflexivity. }
  destruct (fetch_json r) as [data|e].
  2:{ split; [intros; discriminate | reflexivity]. }
  cbn [fst list_body list_status]. split.
  - intros v t ms ns sg H. injection H as <- <- <- <- <-.
    rewrite length_map. split; [reflexivity|]. split; [reflexivity|].
    split; [reflexivity|]. split; [reflexivity|]. split.
    + intros H0. rewrite H0. reflexivity.
    + intros Hpos. split; [|apply firstn_le_length].
      destruct (List.length (modelsOf data)); [lia | reflexivity].
  - intros H. exfalso. eapply H. reflexivity.
Qed.

Lemma listModels_body_witness :
  list_status (fst (listModels (serves ["models/gemini-2.5-pro"; "models/embedding-001"])
                               (Some "k"))) = 200%Z.
Proof.
  refine (proj1 (proj1 (listModels_body
                          (serves ["models/gemini-2.5-pro"; "models/embedding-001"])
                          (Some "k")) _ _ _ _ _ _)).
  reflexivity.
Defined.

Example listModels_sample :
  listModels (servesOnV1 ["models/gemini-2.5-pro"; "models/embedding-001"]) (Some "k")
  = ({| list_status := 200;
        list_body :=
          ListOk "v1" 2
                 [ {| info_name := Some "models/gemini-2.5-pro" |};
                   {| info_name := Some "models/embedding-001" |} ]
                 ["gemini-2.5-pro"; "embedding-001"]
                 "Try using one of these models: gemini-2.5-pro, embedding-001" |},
     [modelsUrl "v1beta" "k"; modelsUrl "v1" "k"]).
Proof. reflexivity. Qed.

(* ------------------------------------------------------------------ *)
(** ** The model test endpoint *)

Section TestModels.

Variable fetch : list string -> string -> Completion FetchResponse.
Variable upstream : list Event -> Call -> Completion GenResult.

Lemma testOne_spec (results : list TestResult) (name : string) (st : State) :
  exists r,
    testOne upstream results name st
    = (results ++ [r], record (Called (GenerateContent name "Hi")) st)
    /\ result_model r = name.
Proof.
  unfold testOne, call.
  destruct (upstream (trace st) (GenerateContent name "Hi")) as [result|err].
  - destruct (response result) as [resp|err].
    + destruct (response_text resp) as [t|err]; eexists; split; reflexivity.
    + eexists; split; reflexivity.
  - eexists; split; reflexivity.
Qed.

(** The loop pushes one entry per name, in order, and makes one call per
    name, in order, and nothing else. *)
Lemma testAll_spec (names : list string) :
  forall (results : list TestResult) (st : State),
  exists rs,
    fst (testAll upstream names results st) = results ++ rs
    /\ map result_model rs = names
    /\ trace (snd (testAll upstream names results st))
       = trace st ++ map (fun n => Called (GenerateContent n "Hi")) names
    /\ cachedModelName (snd (testAll upstream names results st)) = cachedModelName st.
Proof.
  induction names as [|name rest IH]; intros results st; cbn [testAll].
  - exists []. cbn [fst snd map]. rewrite !app_nil_r. repeat split.
  - destruct (testOne_spec results name st) as (r & -> & Hr).
    destruct (IH (results ++ [r]) (record (Called (GenerateContent name "Hi")) st))
      as (rs & Hres & Hmod & Htr & Hc).
    exists (r :: rs). rewrite Hres, Htr, Hc. cbn [record trace cachedModelName map].
    rewrite <- !app_assoc, Hr, Hmod. repeat split.
Qed.

Lemma availableModelsOf_gemini (apiKey : string) :
  Forall (fun n => includes n "gemini" = true) (fst (availableModelsOf fetch apiKey)).
Proof.
  unfold availableModelsOf.
  destruct (fetchModelList fetch apiKey) as [[[r v]|e] urls]; [|constructor].
  destruct (ok r); [|constructor].
  destruct (fetch_json r) as [data|e]; [|constructor].
  cbn [fst]. apply Forall_forall. intros n Hin.
  apply filter_In in Hin. destruct Hin as [_ H].
  apply andb_true_iff in H. tauto.
Qed.

Lemma firstn_In {A} (n : nat) (l : list A) (x : A) : In x (firstn n l) -> In x l.
Proof.
  intros H. rewrite <- (firstn_skipn n l). apply in_or_app. now left.
Qed.

Lemma modelsToTestOf_spec (availableModels : list string) :
  Forall (fun n => includes n "gemini" = true) availableModels ->
  1 <= List.length (modelsToTestOf availableModels) <= 5
  /\ Forall (fun n => includes n "gemini" = true) (modelsToTestOf availableModels)
  /\ (availableModels = [] -> modelsToTestOf availableModels = defaultTestModels)
  /\ (availableModels <> [] -> modelsToTestOf availableModels = firstn 5 availableModels).
Proof.
  intros Hall. unfold modelsToTestOf. destruct availableModels as [|a l].
  - cbn. split; [lia|]. split; [repeat constructor|]. split; [reflexivity|].
    intros H. contradiction.
  - change (0 <? List.length (a :: l))%nat with true. cbv iota.
    split; [|split; [|split; [discriminate | reflexivity]]].
    + pose proof (firstn_le_length 5 (a :: l)). cbn [firstn List.length] in *. lia.
    + apply Forall_forall. intros n Hin. rewrite Forall_forall in Hall.
      apply Hall. apply (firstn_In 5). exact Hin.
Qed.

End TestModels.

(** Which names the API lists, told by the answers of the network. *)
Lemma availableModelsOf_cases
  (fetch : list string -> string -> Completion FetchResponse) (apiKey : string) :
  let geminiNames (data : ModelsData) :=
    filter (fun name => truthy name && includes name "gemini")
           (map stripModelsPrefix (modelsOf data)) in
  (forall r data,
     fetch [] (modelsUrl "v1beta" apiKey) = Returned r -> ok r = true ->
     fetch_json r = Returned data ->
     availableModelsOf fetch apiKey = (geminiNames data, [modelsUrl "v1beta" apiKey]))
  /\ (forall r r' data,
        fetch [] (modelsUrl "v1beta" apiKey) = Returned r -> ok r = false ->
        fetch [modelsUrl "v1beta" apiKey] (modelsUrl "v1" apiKey) = Returned r' ->
        ok r' = true -> fetch_json r' = Returned data ->
        availableModelsOf fetch apiKey
        = (geminiNames data, [modelsUrl "v1beta" apiKey; modelsUrl "v1" apiKey]))
  /\ (forall e,
        fetch [] (modelsUrl "v1beta" apiKey) = Threw e ->
        availableModelsOf fetch apiKey = ([], [modelsUrl "v1beta" apiKey]))
  /\ (forall r e,
        fetch [] (modelsUrl "v1beta" apiKey) = Returned r -> ok r = true ->
        fetch_json r = Threw e ->
        availableModelsOf fetch apiKey = ([], [modelsUrl "v1beta" apiKey]))
  /\ (forall r,
        fetch [] (modelsUrl "v1beta" apiKey) = Returned r -> ok r = false ->
        (forall r' data,
           fetch [modelsUrl "v1beta" apiKey] (modelsUrl "v1" apiKey) = Returned r' ->
           ok r' = true -> fetch_json r' <> Returned data) ->
        availableModelsOf fetch apiKey
        = ([], [modelsUrl "v1beta" apiKey; modelsUrl "v1" apiKey])).
Proof.
  cbv zeta. unfold availableModelsOf, fetchModelList.
  split; [|split; [|split; [|split]]].
  - intros r data -> Hok Hj. rewrite Hok. cbn [negb]. now rewrite Hok, Hj.
  - intros r r' data -> Hok -> Hok' Hj. rewrite Hok. cbn [negb]. now rewrite Hok', Hj.
  - intros e ->. reflexivity.
  - intros r e -> Hok Hj. rewrite Hok. cbn [negb]. now rewrite Hok, Hj.
  - intros r -> Hok Hno. rewrite Hok. cbn [negb].
    destruct (fetch [modelsUrl "v1beta" apiKey] (modelsUrl "v1" apiKey)) as [r'|e];
      [|reflexivity].
    destruct (ok r') eqn:Hok'; [|reflexivity].
    destruct (fetch_json r') as [data|e] eqn:Hj; [|reflexivity].
    exfalso. exact (Hno r' data eq_refl Hok' Hj).
Qed.

(** X15.  With a credential, [/api/test-models] always answers 200,
    whatever the network and the service do.  The names it reports as
    available are the stripped names holding "gemini" of the model list the
    network served (from v1beta, or from v1 when v1beta answered not ok), and
    none when no list could be had.  It tests the first five of them, or the
    five built-in names when there are none; [results] has one entry per tested
    model, in that order, between one and five in all, and every tested name
    holds "gemini". *)
Theorem testModels_report
  (fetch : list string -> string -> Completion FetchResponse)
  (upstream : list Event -> Call -> Completion GenResult)
  (apiKey : string) (st : State) (Hkey : truthy apiKey = true) :
  let geminiNames (data : ModelsData) :=
    filter (fun name => truthy name && includes name "gemini")
           (map stripModelsPrefix (modelsOf data)) in
  let available := fst (availableModelsOf fetch apiKey) in
  (exists results st',
     testModels fetch upstream (Some apiKey) st
     = ({| test_status := 200;
           test_body := TestReport available results (summaryOf available results) |},
        st', snd (availableModelsOf fetch apiKey))
     /\ 1 <= List.length results <= 5
     /\ Forall (fun n => includes n "gemini" = true) (map result_model results)
     /\ (available = [] -> map result_model results = defaultTestModels)
     /\ (available <> [] -> map result_model results = firstn 5 available))
  /\ (forall r data,
        fetch [] (modelsUrl "v1beta" apiKey) = Returned r -> ok r = true ->
        fetch_json r = Returned data ->
        available = geminiNames data)
  /\ (forall r r' data,
        fetch [] (modelsUrl "v1beta" apiKey) = Returned r -> ok r = false ->
        fetch [modelsUrl "v1beta" apiKey] (modelsUrl "v1" apiKey) = Returned r' ->
        ok r' = true -> fetch_json r' = Returned data ->
        available = geminiNames data)
  /\ (forall e, fetch [] (modelsUrl "v1beta" apiKey) = Threw e -> available = [])
  /\ (forall r e,
        fetch [] (modelsUrl "v1beta" apiKey) = Returned r -> ok r = true ->
        fetch_json r = Threw e -> available = [])
  /\ (forall r,
        fetch [] (modelsUrl "v1beta" apiKey) = Returned r -> ok r = false ->
        (forall r' data,
           fetch [modelsUrl "v1beta" apiKey] (modelsUrl "v1" apiKey) = Returned r' ->
           ok r' = true -> fetch_json r' <> Returned data) ->
        available = []).
Proof.
  cbv zeta.
  destruct (availableModelsOf_cases fetch apiKey) as (C1 & C2 & C3 & C4 & C5).
  split; [|split; [|split; [|split; [|split]]]].
  - unfold testModels. rewrite Hkey. cbn [negb].
    pose proof (availableModelsOf_gemini fetch apiKey) as Hg.
    destruct (availableModelsOf fetch apiKey) as [available urls]. cbn [fst snd] in *.
    destruct (testAll_spec upstream (modelsToTestOf available) [] st)
      as (rs & Hres & Hmod & _ & _).
    destruct (testAll upstream (modelsToTestOf available) [] st) as [results st'].
    cbn [fst app] in Hres. subst results.
    destruct (modelsToTestOf_spec available Hg) as (Hlen & Hgem & Hdef & Hfirst).
    exists rs, st'. split; [reflexivity|].
    rewrite Hmod. rewrite <- Hmod in Hlen. rewrite length_map in Hlen.
    repeat split; try assumption; lia.
  - intros r data H1 H2 H3. now rewrite (C1 r data H1 H2 H3).
  - intros r r' data H1 H2 H3 H4 H5. now rewrite (C2 r r' data H1 H2 H3 H4 H5).
  - intros e H1. now rewrite (C3 e H1).
  - intros r e H1 H2 H3. now rewrite (C4 r e H1 H2 H3).
  - intros r H1 H2 H3. now rewrite (C5 r H1 H2 H3).
Qed.

Lemma testModels_report_witness :
  fst (availableModelsOf (servesOnV1 ["models/gemini-2.5-pro"; "models/embedding-001";
                                      "models/gemini-2.0-flash"]) "k")
  = ["gemini-2.5-pro"; "gemini-2.0-flash"].
Proof.
  refine (proj1 (proj2 (proj2 (testModels_report
                                 (servesOnV1 ["models/gemini-2.5-pro";
                                              "models/embedding-001";
                                              "models/gemini-2.0-flash"])
                                 (alwaysReplies "Hello!") "k" emptyState eq_refl)))
                (notOk "Not Found")
                (modelList ["models/gemini-2.5-pro"; "models/embedding-001";
                            "models/gemini-2.0-flash"])
                _ eq_refl eq_refl eq_refl eq_refl eq_refl).
Defined.

(** The list served on v1 decides what is tested. *)
Example testModels_served :
  testModels (servesOnV1 ["models/gemini-2.5-pro"; "models/embedding-001";
                          "models/gemini-2.0-flash"])
             (availableOnly ["gemini-2.0-flash"]) (Some "k") emptyState
  = ({| test_status := 200;
        test_body :=
          TestReport ["gemini-2.5-pro"; "gemini-2.0-flash"]
                     [TestFailed "gemini-2.5-pro" (Some "404 not found");
                      TestSuccess "gemini-2.0-flash" "ok"]
                     {| total := 2; working := 1; workingModels := ["gemini-2.0-flash"];
                        recommendation := "Use model: gemini-2.0-flash" |} |},
     {| cachedModelName := None;
        trace := [Called (GenerateContent "gemini-2.5-pro" "Hi");
                  Called (GenerateContent "gemini-2.0-flash" "Hi")] |},
     [modelsUrl "v1beta" "k"; modelsUrl "v1" "k"]).
Proof. vm_compute. reflexivity. Qed.

(** X16.  [/api/test-models] calls the service once per tested model, with
    the prompt "Hi", in the order of [results]: no call is retried, nothing is
    slept and [cachedModelName] is not touched.  Without a credential it
    answers 500 and neither fetches nor calls. *)
Theorem testModels_calls
  (fetch : list string -> string -> Completion FetchResponse)
  (upstream : list Event -> Call -> Completion GenResult)
  (key : option string) (st : State) :
  let st' := snd (fst (testModels fetch upstream key st)) in
  cachedModelName st' = cachedModelName st
  /\ (forall available results summary,
        test_body (fst (fst (testModels fetch upstream key st)))
        = TestReport available results summary ->
        trace st' = trace st
                    ++ map (fun n => Called (GenerateContent n "Hi"))
                           (map result_model results))
  /\ (truthyOpt key = false ->
      testModels fetch upstream key st
      = ({| test_status := 500; test_body := TestError "GEMINI_API_KEY not set" |}, st, [])).
Proof.
  cbv zeta. unfold testModels. destruct key as [apiKey|].
  2:{ repeat split. intros; discriminate. }
  cbn [truthyOpt]. destruct (truthy apiKey); cbn [negb].
  2:{ repeat split. intros; discriminate. }
  destruct (availableModelsOf fetch apiKey) as [available urls].
  destruct (testAll_spec upstream (modelsToTestOf available) [] st)
    as (rs & Hres & Hmod & Htr & Hc).
  destruct (testAll upstream (modelsToTestOf available) [] st) as [results st'].
  cbn [fst snd app] in *. subst results.
  split; [exact Hc|]. split; [|discriminate].
  intros a r sm H. injection H as _ <- _. rewrite Hmod. exact Htr.
Qed.

Lemma testModels_calls_witness :
  testModels (serves ["models/gemini-2.5-pro"]) (alwaysReplies "Hello!") (Some "")
             (cachedState "gemini-2.5-flash")
  = ({| test_status := 500; test_body := TestError "GEMINI_API_KEY not set" |},
     cachedState "gemini-2.5-flash", []).
Proof.
  apply (proj2 (proj2 (testModels_calls (serves ["models/gemini-2.5-pro"])
                                        (alwaysReplies "Hello!") (Some "")
                                        (cachedState "gemini-2.5-flash")))).
  reflexivity.
Defined.

Lemma filter_incl_map {A B} (f : A -> bool) (g : A -> B) (l : list A) :
  incl (map g (filter f l)) (map g l).
Proof.
  intros x Hx. apply in_map_iff in Hx. destruct Hx as (a & <- & Ha).
  apply filter_In in Ha. apply in_map. tauto.
Qed.

(** X17.  The summary of a test report is consistent with its results:
    [total] counts the results, [working] counts [workingModels] and never
    exceeds [total], every working model is a tested one, [working] is zero
    exactly when every entry failed, and when some model works the
    recommendation names the first that does. *)
Theorem summaryOf_consistent (availableModels : list string) (results : list TestResult) :
  let s := summaryOf availableModels results in
  total s = List.length results
  /\ working s = List.length (workingModels s)
  /\ working s <= total s
  /\ incl (workingModels s) (map result_model results)
  /\ (working s = 0 <-> Forall (fun r => result_status r = "failed") results)
  /\ (forall w rest, workingModels s = w :: rest ->
        recommendation s = ("Use model: " ++ w)%string).
Proof.
  cbv zeta. unfold summaryOf. cbn [total working workingModels recommendation].
  split; [reflexivity|]. split; [now rewrite length_map|].
  split; [apply filter_length_le|]. split; [apply filter_incl_map|]. split.
  - induction results as [|r rs IH]; cbn [filter].
    + split; [constructor | reflexivity].
    + destruct r as [m t|m e]; cbn [result_status]; simpl.
      * split; [discriminate|]. intros H. inversion H. discriminate.
      * rewrite IH. split; [intros H; constructor; [reflexivity | exact H]|].
        intros H. now inversion H.
  - intros w rest.
    destruct (filter (fun r => result_status r =? "success") results) as [|r0 l];
      [discriminate|].
    cbn [map]. intros H. injection H as <- _. reflexivity.
Qed.

Lemma summaryOf_consistent_witness :
  recommendation (summaryOf ["gemini-a"; "gemini-b"]
                            [TestFailed "gemini-a" (Some "404"); TestSuccess "gemini-b" "Hello!"])
  = "Use model: gemini-b".
Proof.
  apply (proj2 (proj2 (proj2 (proj2 (proj2
           (summaryOf_consistent ["gemini-a"; "gemini-b"]
              [TestFailed "gemini-a" (Some "404"); TestSuccess "gemini-b" "Hello!"]))))) _ []).
  reflexivity.
Defined.

Example testModels_sample :
  testModels (serves ["models/gemini-2.5-pro"; "models/embedding-001"])
             (availableOnly ["gemini-2.5-pro"]) (Some "k") (cachedState "gemini-2.5-flash")
  = ({| test_status := 200;
        test_body :=
          TestReport ["gemini-2.5-pro"] [TestSuccess "gemini-2.5-pro" "ok"]
                     {| total := 1; working := 1; workingModels := ["gemini-2.5-pro"];
                        recommendation := "Use model: gemini-2.5-pro" |} |},
     {| cachedModelName := Some "gemini-2.5-flash";
        trace := [Called (GenerateContent "gemini-2.5-pro" "Hi")] |},
     [modelsUrl "v1beta" "k"]).
Proof. reflexivity. Qed.

(* ------------------------------------------------------------------ *)
(** ** The browser client and the handler together *)

Lemma sliceLast_snoc {A} (n : nat) (l : list A) (x : A) :
  sliceLast (S n) (l ++ [x]) = sliceLast n l ++ [x].
Proof.
  unfold sliceLast. rewrite length_app. cbn [List.length].
  replace (List.length l + 1 - S n) with (List.length l - n) by lia.
  rewrite skipn_app.
  replace (List.length l - n - List.length l) with 0 by lia. reflexivity.
Qed.

Section ClientRounds.

Variable server : Request -> State -> HttpResponse * State.
Variable saveMessageToFirestore : string -> string -> Completion unit.

Lemma sendMessage_state (message : string) (c : Client) (st : State) :
  currentUser c = true ->
  saveMessageToFirestore "user" message = Returned tt ->
  snd (sendMessage server saveMessageToFirestore message c st)
  = snd (server (clientRequest c message) st).
Proof.
  intros Hu Hs. unfold sendMessage. rewrite Hu, Hs. cbn [negb].
  destruct (server (clientRequest c message) st) as [res st'].
  destruct (negb (resOk res)); [reflexivity|].
  destruct (saveMessageToFirestore "bot" _); reflexivity.
Qed.

(** What [sendMessage] adds to the history: one or two entries said by the
    bot. *)
Lemma sendMessage_history (message : string) (c : Client) (st : State) :
  currentUser c = true ->
  exists added,
    conversationHistory (fst (sendMessage server saveMessageToFirestore message c st))
    = conversationHistory c ++ added
    /\ 1 <= List.length added <= 2
    /\ Forall (fun m => sender m = "bot") added.
Proof.
  intros Hu. unfold sendMessage, reportError. rewrite Hu. cbn [negb].
  destruct (saveMessageToFirestore "user" message) as [[]|err].
  - destruct (server (clientRequest c message) st) as [res st'].
    destruct (negb (resOk res)).
    + eexists. split; [reflexivity|]. split; [simpl; lia | repeat constructor].
    + destruct (saveMessageToFirestore "bot" _) as [[]|err]; cbn [fst addMessageToUI
        conversationHistory].
      * eexists. split; [reflexivity|]. split; [simpl; lia | repeat constructor].
      * rewrite <- app_assoc. eexists. split; [reflexivity|].
        split; [simpl; lia | repeat constructor].
  - eexists. split; [reflexivity|]. split; [simpl; lia | repeat constructor].
Qed.

End ClientRounds.

(** X18.  The request the page sends for a typed message reaches the handler
    with the new message already in its history: the history is the last 30
    entries of the page's log, ending with the new message as a user entry, so
    the handler's own trimming changes nothing, and the conversation the
    handler builds ends with the new message twice. *)
Theorem submit_request
  (upstream : list Event -> Call -> Completion GenResult) (key : option string)
  (saveMessageToFirestore : string -> string -> Completion unit)
  (typed : string) (c : Client) (st : State)
  (Huser : currentUser c = true)
  (Htyped : trim typed <> "")
  (Hsaved : saveMessageToFirestore "user" (trim typed) = Returned tt) :
  let message := trim typed in
  let req := clientRequest (addMessageToUI message "user" c) message in
  snd (submit (chatHandler upstream key) saveMessageToFirestore typed c st)
  = snd (chatHandler upstream key req st)
  /\ trimmedHistoryOf (req_history req)
     = sliceLast 29 (conversationHistory c) ++ [userMsg message]
  /\ List.length (trimmedHistoryOf (req_history req)) <= 30
  /\ buildHistoryForGemini (Some (trimmedHistoryOf (req_history req))) (trim message)
     = map turnOf (filter knownSender (sliceLast 29 (conversationHistory c)))
       ++ [userTurn message; userTurn message].
Proof.
  cbv zeta.
  assert (Hreq : trimmedHistoryOf
                   (req_history (clientRequest (addMessageToUI (trim typed) "user" c)
                                               (trim typed)))
                 = sliceLast 29 (conversationHistory c) ++ [userMsg (trim typed)]).
  { cbn [clientRequest req_history trimmedHistoryOf addMessageToUI conversationHistory].
    rewrite sliceLast_snoc.
    rewrite (sliceLast_short 30) by (rewrite length_app, sliceLast_length; simpl; lia).
    reflexivity. }
  split; [|split; [exact Hreq|split]].
  - unfold submit. apply truthy_nonempty in Htyped. rewrite Htyped, Huser. cbn [negb orb].
    apply sendMessage_state; [exact Huser | exact Hsaved].
  - rewrite Hreq, length_app, sliceLast_length. simpl. lia.
  - rewrite Hreq, trim_idempotent, buildHistoryForGemini_eq.
    rewrite filter_app, map_app, <- app_assoc. reflexivity.
Qed.

Lemma submit_request_witness :
  buildHistoryForGemini
    (Some (trimmedHistoryOf
             (req_history (clientRequest
                             (addMessageToUI (trim " hello ") "user"
                                {| conversationHistory := [botMsg "welcome"];
                                   currentUser := true |})
                             (trim " hello "))))) (trim (trim " hello "))
  = map turnOf (filter knownSender (sliceLast 29 [botMsg "welcome"]))
    ++ [userTurn (trim " hello "); userTurn (trim " hello ")].
Proof.
  refine (proj2 (proj2 (proj2 (submit_request (alwaysReplies "ok") (Some "k") storeOk
                                 " hello "
                                 {| conversationHistory := [botMsg "welcome"];
                                    currentUser := true |}
                                 emptyState _ _ _)))).
  - reflexivity.
  - discriminate.
  - reflexivity.
Defined.

(** X19.  Nothing is sent and nothing changes for a blank input or without
    a logged-in user.  Otherwise the page's log grows by the typed message,
    trimmed, as a user entry, followed by one or two entries said by the bot;
    when the handler answers with an error, the bot entry is
    "Sorry, I encountered an error: " and the error text, which later requests
    carry in their history. *)
Theorem submit_history
  (server : Request -> State -> HttpResponse * State)
  (saveMessageToFirestore : string -> string -> Completion unit)
  (typed : string) (c : Client) (st : State) :
  (trim typed = "" \/ currentUser c = false ->
   submit server saveMessageToFirestore typed c st = (c, st))
  /\ (trim typed <> "" -> currentUser c = true ->
      exists added,
        conversationHistory (fst (submit server saveMessageToFirestore typed c st))
        = conversationHistory c ++ userMsg (trim typed) :: added
        /\ 1 <= List.length added <= 2
        /\ Forall (fun m => sender m = "bot") added)
  /\ (forall e st',
        trim typed <> "" -> currentUser c = true ->
        saveMessageToFirestore "user" (trim typed) = Returned tt ->
        server (clientRequest (addMessageToUI (trim typed) "user" c) (trim typed)) st
        = ({| status := 500; body := ErrorBody e |}, st') ->
        e <> "" ->
        submit server saveMessageToFirestore typed c st
        = ({| conversationHistory :=
                conversationHistory c
                ++ [userMsg (trim typed);
                    botMsg ("Sorry, I encountered an error: " ++ e)%string];
              currentUser := true |}, st')).
Proof.
  split; [|split].
  - unfold submit. intros [H|H]; rewrite H; [reflexivity|].
    now rewrite orb_true_r.
  - intros Ht Hu. unfold submit. apply truthy_nonempty in Ht. rewrite Ht, Hu.
    cbn [negb orb].
    destruct (sendMessage_history server saveMessageToFirestore (trim typed)
                (addMessageToUI (trim typed) "user" c) st Hu)
      as (added & Hh & Hlen & Hbot).
    exists added. rewrite Hh. cbn [addMessageToUI conversationHistory].
    rewrite <- app_assoc. split; [reflexivity|]. split; assumption.
  - intros e st' Ht Hu Hs Hres He. unfold submit, sendMessage, reportError.
    apply truthy_nonempty in Ht. rewrite Ht. cbn [addMessageToUI currentUser].
    rewrite Hu. cbn [negb orb]. rewrite Hs.
    change (clientRequest _ (trim typed))
      with (clientRequest (addMessageToUI (trim typed) "user" c) (trim typed)).
    rewrite Hres. cbn [resOk status body negb andb Z.leb Z.compare Pos.compare
                       Pos.compare_cont].
    apply truthy_nonempty in He. cbn [orElse]. rewrite He.
    unfold addMessageToUI. cbn [conversationHistory currentUser].
    rewrite <- app_assoc, Hu. reflexivity.
Qed.

Lemma submit_history_witness :
  submit (chatHandler (alwaysFails "[404 Not Found] no such model") (Some "k")) storeOk
         "hi" {| conversationHistory := []; currentUser := true |} emptyState
  = ({| conversationHistory :=
          [] ++ [userMsg (trim "hi");
                 botMsg ("Sorry, I encountered an error: " ++ msgOverloaded)%string];
        currentUser := true |},
     snd (chatHandler (alwaysFails "[404 Not Found] no such model") (Some "k")
                      (clientRequest
                         (addMessageToUI (trim "hi") "user"
                            {| conversationHistory := []; currentUser := true |})
                         (trim "hi")) emptyState)).
Proof.
  refine (proj2 (proj2 (submit_history
                          (chatHandler (alwaysFails "[404 Not Found] no such model")
                                       (Some "k")) storeOk "hi"
                          {| conversationHistory := []; currentUser := true |} emptyState))
                _ _ _ _ _ _ _).
  - discriminate.
  - reflexivity.
  - reflexivity.
  - vm_compute. reflexivity.
  - discriminate.
Defined.
